(** * chat-with-documents: the Streamlit shell (src/app.py) and the
      deployment detector (src/config.py)

    The two Python modules are embedded as they are written.
    [st.session_state] is a dictionary keyed by attribute name, so it is a
    [gmap string value]; a script run is a computation that threads the
    session state, emits the widgets it renders and ends normally, by
    [st.stop()], by [st.rerun()] or by an uncaught exception.  Everything the
    script imports from modules outside these two files (loaders, scanner,
    vector store, retrieval, LLM) is a field of the record [world]. *)

From Stdlib Require Import Ascii.
From stdpp Require Import gmap strings list fin_maps pretty.

Open Scope string_scope.

(** ** Python strings *)

(** [s.startswith(p)], by recursion on both strings. *)
Fixpoint startswith (p s : string) : bool :=
  match p, s with
  | EmptyString, _ => true
  | String a p', String b s' => if decide (a = b) then startswith p' s' else false
  | String _ _, EmptyString => false
  end.

(** [needle in hay] on two [str] values: substring test. *)
Fixpoint str_in (needle hay : string) : bool :=
  startswith needle hay ||
  match hay with
  | EmptyString => false
  | String _ hay' => str_in needle hay'
  end.

(** ** Exceptions

    Only subclasses of [Exception] are listed; [st.stop()] and [st.rerun()]
    are control signals, not exceptions an [except Exception] clause sees. *)
Inductive exn :=
| KeyError (key : string)
| NameError (name : string)
| AttributeError (attr : string)
| TypeError (what : string)
| OtherError (msg : string).

Definition is_KeyError (e : exn) : bool :=
  match e with KeyError _ => true | _ => false end.

(** A value that is [None] or a [str] ([default: str = None], the result of
    [st.chat_input], the fields of a chat turn). *)
Inductive atom := PNone | PStr (s : string).

(** Truth value of an [atom] in an [if]. *)
Definition atom_truthy (a : atom) : bool :=
  match a with
  | PNone => false
  | PStr s => negb (String.eqb s "")
  end.

(** ** src/config.py *)
Module Config.

(** [is_streamlit_cloud()] of config.py; [env] is [os.environ] and
    [hostname] the result of [socket.gethostname()]. *)
Definition is_streamlit_cloud (env : gmap string string) (hostname : string) : bool :=
  if bool_decide (is_Some (env !! "STREAMLIT_SERVER_HEADLESS")) then true
  else if str_in "streamlit" hostname || str_in "cloud" hostname then true
  else
    let streamlit_home := default "" (env !! "STREAMLIT_HOME") in
    if str_in "share" streamlit_home || str_in "streamlit" streamlit_home then true
    else false.

End Config.

(** ** Data the shell handles *)

(** A chat turn is a Python dict with string keys; its values are [str]
    (or [None], which the shell never stores: see [history_ok]). *)
Abbreviation message := (gmap string atom).

(** What [st.file_uploader] returns: the archive and its original name. *)
Record uploaded_file := UploadedFile { name : string; data : string }.

(** A chunk: extracted text tagged with the file it comes from. *)
Record chunk := Chunk { chunk_body : string; chunk_source : string }.

(** A vector collection, scoped by a source identifier. *)
Record vcollection := Collection { coll_scope : string; coll_chunks : list chunk }.

(** The handle [set_llm()] returns. *)
Inductive llm_client := LlmClient (model : string).

(** [HumanMessage] / [AIMessage] of langchain_core. *)
Inductive lc_message := HumanMessage (s : atom) | AIMessage (s : atom).

(** The four loader functions imported from document_loader. *)
Inductive loader := load_txt | load_pdf | load_docx | load_odt.

(** Values stored under the keys of [st.session_state]. *)
Inductive value :=
| VStr (s : string)
| VBool (b : bool)
| VFiles (files : list string)
| VZip (z : uploaded_file)
| VColl (c : vcollection)
| VLlm (h : llm_client)
| VMsgs (ms : list message).

(** Truth value of a stored value in an [if]. *)
Definition truthy (v : value) : bool :=
  match v with
  | VStr s => negb (String.eqb s "")
  | VBool b => b
  | VFiles l => match l with [] => false | _ => true end
  | VMsgs l => match l with [] => false | _ => true end
  | VZip _ | VColl _ | VLlm _ => true
  end.

(** What the script renders, in order. *)
Inductive widget :=
| Title (s : string)
| Write (s : string)
| Info (s : string)
| Error (s : string)
| Success (s : string)
| Code (s : string)
| Markdown (s : string)
| Spinner (s : string)
| Progress (num den : nat)
| ChatMessage (role body : atom)
| FileUploader (label : string)
| TextInput (label : string)
| Button (label : string)
| ChatInput (label : string).

(** The widget values of one script run: what the user did to trigger it. *)
Record events := Events {
  file_uploader : option uploaded_file;
  load_zip_clicked : bool;
  text_input : string;
  load_folder_clicked : bool;
  clear_chat_clicked : bool;
  chat_input : atom
}.

(** Everything outside the two modules, as seen during one script run. *)
Record world := World {
  environ : gmap string string;
  hostname : string;
  strftime : string;
  secrets : gmap string string;
  dotenv_file : list (string * string);
  path_exists : string → bool;
  scan_folders : string → exn + list string;
  mkdtemp : string;
  extractall : uploaded_file → string → option exn;
  splitext : string → string;
  run_loader : loader → string → exn + string;
  chunk_text : string → string → exn + list chunk;
  create_collection : string → exn + vcollection;
  add_chunks_error : list chunk → vcollection → option exn;
  create_file_index_chunk : list string → exn + list chunk;
  query_documents : vcollection → atom → exn + list chunk;
  set_langchain_history : list message → exn + list lc_message;
  generate_answer : llm_client → atom → list chunk → list lc_message → exn + string;
  set_llm : exn + llm_client
}.

(** ** Script runs

    A run ends by falling off the end ([Ret]), by [st.stop()], by
    [st.rerun()] or by an uncaught exception.  In all four cases the writes
    made to the session state so far persist and the widgets rendered so far
    stay on screen. *)
Inductive signal := Stop | Rerun | Raise (e : exn).

Inductive res (A : Type) := Ret (a : A) | Sig (g : signal).
Arguments Ret {A} a.
Arguments Sig {A} g.

Record run (A : Type) := Run {
  outcome : res A;
  final : gmap string value;
  shown : list widget
}.
Arguments Run {A} outcome final shown.
Arguments outcome {A} r.
Arguments final {A} r.
Arguments shown {A} r.

Definition M (A : Type) : Type := gmap string value → run A.

#[global] Instance M_ret : MRet M := λ A a s, Run (Ret a) s [].

#[global] Instance M_bind : MBind M := λ A B k m s,
  match m s with
  | Run (Ret a) s1 o1 =>
      match k a s1 with
      | Run r s2 o2 => Run r s2 (o1 ++ o2)
      end
  | Run (Sig g) s1 o1 => Run (Sig g) s1 o1
  end.

(** Rendering a widget. *)
Definition show (x : widget) : M unit := λ s, Run (Ret tt) s [x].

(** [st.stop()], [st.rerun()] and [raise]. *)
Definition stop {A} : M A := λ s, Run (Sig Stop) s [].
Definition rerun {A} : M A := λ s, Run (Sig Rerun) s [].
Definition raise {A} (e : exn) : M A := λ s, Run (Sig (Raise e)) s [].

(** A call into an imported module: its result or the exception it raises. *)
Definition call {A} (r : exn + A) : M A :=
  match r with
  | inl e => raise e
  | inr a => mret a
  end.

(** [k in st.session_state]. *)
Definition has (k : string) : M bool := λ s, Run (Ret (bool_decide (is_Some (s !! k)))) s [].

(** [st.session_state.k]: an absent key raises [AttributeError]. *)
Definition getattr (k : string) : M value := λ s,
  match s !! k with
  | Some v => Run (Ret v) s []
  | None => Run (Sig (Raise (AttributeError k))) s []
  end.

(** [st.session_state.k = v]. *)
Definition setattr (k : string) (v : value) : M unit := λ s, Run (Ret tt) (<[k := v]> s) [].

(** [del st.session_state.k]. *)
Definition delattr (k : string) : M unit := λ s,
  match s !! k with
  | Some _ => Run (Ret tt) (delete k s) []
  | None => Run (Sig (Raise (AttributeError k))) s []
  end.

(** [try: m except ...: h]: [h e] is the handler of the first clause that
    matches [e], [None] when no clause does. *)
Definition try_except {A} (m : M A) (h : exn → option (M A)) : M A := λ s,
  match m s with
  | Run (Sig (Raise e)) s1 o1 =>
      match h e with
      | Some m' =>
          match m' s1 with
          | Run r s2 o2 => Run r s2 (o1 ++ o2)
          end
      | None => Run (Sig (Raise e)) s1 o1
      end
  | r => r
  end.

(** [if b: m]. *)
Definition when (b : bool) (m : M unit) : M unit := if b then m else mret tt.

(** [if k in st.session_state: del st.session_state.k]. *)
Definition del_if_in (k : string) : M unit :=
  b ← has k; when b (delattr k).

(** The stored value used where the code needs a [str], a list of paths,
    an upload, a collection, an LLM handle or a list of turns. *)
Definition as_str (v : value) : M string :=
  match v with VStr s => mret s | _ => raise (TypeError "str") end.
Definition as_files (v : value) : M (list string) :=
  match v with VFiles l => mret l | _ => raise (TypeError "list") end.
Definition as_zip (v : value) : M uploaded_file :=
  match v with VZip z => mret z | _ => raise (TypeError "UploadedFile") end.
Definition as_coll (v : value) : M vcollection :=
  match v with VColl c => mret c | _ => raise (TypeError "Collection") end.
Definition as_llm (v : value) : M llm_client :=
  match v with VLlm h => mret h | _ => raise (TypeError "llm") end.
Definition as_msgs (v : value) : M (list message) :=
  match v with VMsgs ms => mret ms | _ => raise (TypeError "list") end.

(** [len(v)]. *)
Definition py_len (v : value) : M nat :=
  match v with
  | VStr s => mret (String.length s)
  | VFiles l => mret (length l)
  | VMsgs l => mret (length l)
  | _ => raise (TypeError "len")
  end.

(** [d[k]] on a dict: an absent key raises [KeyError]. *)
Definition item {V} (d : gmap string V) (k : string) : M V :=
  match d !! k with
  | Some v => mret v
  | None => raise (KeyError k)
  end.

(** [st.session_state.messages.append(m)]. *)
Definition append_message (m : message) : M unit :=
  v ← getattr "messages";
  match v with
  | VMsgs ms => setattr "messages" (VMsgs (ms ++ [m]))
  | _ => raise (AttributeError "append")
  end.

(** ** src/app.py *)
Module App.

(** [is_streamlit_cloud()] of app.py; [env] is [os.environ]. *)
Definition is_streamlit_cloud (env : gmap string string) : bool :=
  bool_decide (is_Some (env !! "STREAMLIT_RUNTIME")) ||
  bool_decide (is_Some (env !! "STREAMLIT_SHARING_MODE")) ||
  bool_decide (is_Some (env !! "STREAMLIT_SERVER_HEADLESS")).

(** The names app.py binds at module level: its imports, [loaders] and its
    functions, then the variables of the top-level code.  A name a function
    body uses and does not assign is looked up here at call time, then in
    the builtins, where [load_dotenv] is not found either. *)
Definition module_names : list string :=
  [ "os"; "time"; "st";
    "load_txt"; "load_pdf"; "load_docx"; "load_odt";
    "scan_folders";
    "chunk_text"; "create_collection"; "add_chunks"; "create_file_index_chunk";
    "set_llm"; "generate_answer"; "set_langchain_history";
    "query_documents";
    "HumanMessage"; "AIMessage";
    "loaders";
    "is_streamlit_cloud"; "get_secret"; "extract_zip_and_scan";
    "render_sidebar"; "initialize_vector_store"; "handle_chat_input";
    "files"; "temp_dir"; "collection_path"; "llm"; "message" ].

Definition bound (name : string) : bool := bool_decide (name ∈ module_names).

(** [load_dotenv()] of python-dotenv with its default [override=False]:
    a variable of the file is set unless the environment already has it. *)
Definition load_dotenv (file : list (string * string)) (env : gmap string string)
  : gmap string string :=
  foldl (λ e kv, match e !! kv.1 with Some _ => e | None => <[kv.1 := kv.2]> e end) env file.

(** [d.get(key, default)] / [os.getenv(key, default)]. *)
Definition get_or (d : gmap string string) (key : string) (default : atom) : atom :=
  match d !! key with
  | Some v => PStr v
  | None => default
  end.

(** [get_secret(key, default)]: the value returned or the exception raised,
    and [os.environ] afterwards. *)
Definition get_secret (w : world) (key : string) (default : atom)
  : (exn + atom) * gmap string string :=
  if is_streamlit_cloud (environ w) then
    (inr (get_or (secrets w) key default), environ w)
  else if bound "load_dotenv" then
    let env := load_dotenv (dotenv_file w) (environ w) in
    (inr (get_or env key default), env)
  else
    (inl (NameError "load_dotenv"), environ w).

(** [loaders]: file extension to loader function. *)
Definition loaders : gmap string loader :=
  {[ ".txt" := load_txt; ".pdf" := load_pdf; ".docx" := load_docx; ".odt" := load_odt ]}.

(** [extract_zip_and_scan(uploaded_zip)]. *)
Definition extract_zip_and_scan (w : world) (uploaded_zip : value)
  : M (string * list string) :=
  let temp_dir := mkdtemp w in
  (z ← as_zip uploaded_zip;
   match extractall w z temp_dir with
   | Some e => raise e
   | None => mret tt
   end);;
  files ← call (scan_folders w temp_dir);
  mret (temp_dir, files).

(** [render_sidebar()]. *)
Definition render_sidebar (w : world) (ev : events) : M unit :=
  show (Title "📁 Document Settings");;
  (if is_streamlit_cloud (environ w) then
     show (FileUploader "Upload a ZIP file with your documents:");;
     match file_uploader ev with
     | Some uploaded_zip =>
         show (Button "Load ZIP");;
         when (load_zip_clicked ev)
           (setattr "uploaded_zip" (VZip uploaded_zip);;
            del_if_in "collection";;
            del_if_in "files";;
            rerun)
     | None => mret tt
     end;;
     b ← has "uploaded_zip";
     when b
       (show (Markdown "---");;
        show (Success "📦 **ZIP Uploaded:**");;
        z ← getattr "uploaded_zip" ≫= as_zip;
        show (Code (name z));;
        b ← has "files";
        when b
          (n ← getattr "files" ≫= py_len;
           show (Info ("📄 **Files Indexed:** " +:+ pretty n))))
   else
     show (TextInput "Enter folder path:");;
     let folder_path := text_input ev in
     show (Button "Load Folder");;
     when (load_folder_clicked ev)
       (if negb (String.eqb folder_path "") && path_exists w folder_path then
          setattr "folder_path" (VStr folder_path);;
          del_if_in "collection";;
          del_if_in "files";;
          rerun
        else if negb (String.eqb folder_path "") then
          show (Error "Folder not found. Please check the path.");;
          del_if_in "files";;
          del_if_in "folder_path"
        else
          show (Info "Please enter a folder path"));;
     b ← has "folder_path";
     when b
       (show (Markdown "---");;
        show (Success "📂 **Current Folder:**");;
        p ← getattr "folder_path" ≫= as_str;
        show (Code p);;
        b ← has "files";
        when b
          (n ← getattr "files" ≫= py_len;
           show (Info ("📄 **Files Indexed:** " +:+ pretty n)))));;
  show (Markdown "---");;
  show (Button "🗑️ Clear Chat History");;
  when (clear_chat_clicked ev)
    (setattr "messages" (VMsgs []);;
     rerun).


(** Modelled from the spec: [add_chunks(chunks, collection)] of the
    vector_store module, which is not part of the two files.  It inserts
    the chunks and returns the collection handle; a call that fails raises
    and leaves what was inserted before as it was.  Which calls fail is
    the world's choice ([add_chunks_error]). *)
Definition add_chunks (w : world) (chunks : list chunk) (c : vcollection)
  : exn + vcollection :=
  match add_chunks_error w chunks c with
  | Some e => inl e
  | None => inr (Collection (coll_scope c) (coll_chunks c ++ chunks))
  end.

(** The [try]/[except KeyError] of the indexing loop: look the loader up
    and run it. *)
Definition load_content (w : world) (file : string) : M string :=
  let extension := splitext w file in
  try_except
    (fn ← item loaders extension;
     call (run_loader w fn file))
    (λ e, if is_KeyError e
          then Some (show (Write ("File " +:+ file +:+ " not supported. Skipping."));;
                     mret "")
          else None).

(** The [if chunks:] block of the indexing loop. *)
Definition insert_chunks (w : world) (file : string) (chunks : list chunk)
    (collection : vcollection) : M vcollection :=
  match chunks with
  | [] => mret collection
  | _ =>
      try_except
        (call (add_chunks w chunks collection))
        (λ _, Some (show (Write ("Error processing file " +:+ file +:+ ". Skipping."));;
                    mret collection))
  end.

(** [for i, file in enumerate(files)] of [initialize_vector_store];
    [total] is [len(files)] and [i] the index of the head of [files]. *)
Fixpoint index_files (w : world) (total i : nat) (files : list string)
    (collection : vcollection) : M vcollection :=
  match files with
  | [] => mret collection
  | file :: rest =>
      show (Progress (S i) total);;
      content ← load_content w file;
      chunks ← call (chunk_text w content file);
      collection ← insert_chunks w file chunks collection;
      index_files w total (S i) rest collection
  end.

(** [initialize_vector_store(folder_path, files)]. *)
Definition initialize_vector_store (w : world) (folder_path files : value) : M unit :=
  b ← has "collection";
  if negb b then
    collection ← try_except
      (p ← as_str folder_path;
       call (create_collection w p))
      (λ _, Some (show (Write "Error setting up the document storage system.");;
                  stop));
    show (Spinner "Indexing documents...");;
    show (Progress 0 1);;
    fs ← as_files files;
    collection ← index_files w (length fs) 0 fs collection;
    file_index ← call (create_file_index_chunk w fs);
    collection ← try_except
      (call (add_chunks w file_index collection))
      (λ _, Some (show (Write "Warning: Could not index file names. You can still search document content.");;
                  mret collection));
    setattr "collection" (VColl collection);;
    rerun
  else
    _ ← getattr "collection";
    mret tt.

(** [handle_chat_input(collection, llm)]. *)
Definition handle_chat_input (w : world) (ev : events) (collection llm : value) : M unit :=
  show (ChatInput "Ask your question");;
  let user_input := chat_input ev in
  when (atom_truthy user_input)
    (append_message {[ "role" := PStr "user"; "content" := user_input ]};;
     show (ChatMessage (PStr "user") user_input);;
     related_chunks ← try_except
       (c ← as_coll collection;
        call (query_documents w c user_input))
       (λ _, Some (show (Info "Error searching documents. Please try again.");;
                   stop));
     ms ← getattr "messages" ≫= as_msgs;
     history ← call (set_langchain_history w ms);
     h ← as_llm llm;
     answer ← call (generate_answer w h user_input related_chunks history);
     append_message {[ "role" := PStr "assistant"; "content" := PStr answer ]};;
     show (ChatMessage (PStr "assistant") (PStr answer))).

(** [for message in st.session_state.messages]: replay of the history. *)
Fixpoint replay (ms : list message) : M unit :=
  match ms with
  | [] => mret tt
  | message :: rest =>
      role ← item message "role";
      content ← item message "content";
      show (ChatMessage role content);;
      replay rest
  end.

(** The source resolution of the module's top level (lines 271-291). *)
Definition resolve_source (w : world) : M unit :=
  b ← has "folder_path";
  if (b : bool) then
    files ← (p ← getattr "folder_path" ≫= as_str; call (scan_folders w p));
    match files return M unit with
    | [] =>
        b ← has "show_popup";
        when (negb b) (setattr "show_popup" (VBool true));;
        flag ← getattr "show_popup";
        when (truthy flag) (show (Info "No documents found"));;
        stop
    | _ => mret tt
    end;;
    setattr "files" (VFiles files)
  else
    b ← has "uploaded_zip";
    if (b : bool) then
      '(temp_dir, files) ← getattr "uploaded_zip" ≫= extract_zip_and_scan w;
      match files return M unit with
      | [] =>
          show (Info "No documents found in ZIP");;
          stop
      | _ => mret tt
      end;;
      setattr "files" (VFiles files);;
      setattr "temp_dir" (VStr temp_dir)
    else stop.

(** The module's top level: one script run. *)
Definition script (w : world) (ev : events) : M unit :=
  show (Title "Chat with your documents!");;
  show (Write (strftime w));;
  render_sidebar w ev;;
  resolve_source w;;
  collection_path ←
    (if is_streamlit_cloud (environ w)
     then z ← getattr "uploaded_zip" ≫= as_zip; mret (VStr (name z))
     else getattr "folder_path");
  files ← getattr "files";
  initialize_vector_store w collection_path files;;
  b ← has "llm";
  when (negb b) (h ← call (set_llm w); setattr "llm" (VLlm h));;
  llm ← getattr "llm";
  b ← has "messages";
  when (negb b) (setattr "messages" (VMsgs []));;
  ms ← getattr "messages" ≫= as_msgs;
  replay ms;;
  collection ← getattr "collection";
  handle_chat_input w ev collection llm.

(** The top level after the source resolution (lines 297-324): indexing,
    then the chat.  [script] is the title, the date, the sidebar and the
    source resolution followed by this part ([script_parts]). *)
Definition after_source (w : world) (ev : events) : M unit :=
  collection_path ←
    (if is_streamlit_cloud (environ w)
     then z ← getattr "uploaded_zip" ≫= as_zip; mret (VStr (name z))
     else getattr "folder_path");
  files ← getattr "files";
  initialize_vector_store w collection_path files;;
  b ← has "llm";
  when (negb b) (h ← call (set_llm w); setattr "llm" (VLlm h));;
  llm ← getattr "llm";
  b ← has "messages";
  when (negb b) (setattr "messages" (VMsgs []));;
  ms ← getattr "messages" ≫= as_msgs;
  replay ms;;
  collection ← getattr "collection";
  handle_chat_input w ev collection llm.

(** A session: the script runs once per user action or forced refresh,
    each run starting from the session state the previous one left.  The
    result lists what each run showed, first run first. *)
Fixpoint session (runs : list (world * events)) (s : gmap string value)
  : gmap string value * list (list widget) :=
  match runs with
  | [] => (s, [])
  | (w, ev) :: rest =>
      let r := script w ev s in
      let '(s', screens) := session rest (final r) in
      (s', shown r :: screens)
  end.

End App.

(** ** Concrete worlds, used to run the script on explicit inputs *)
Module Demo.

(** The extension [os.path.splitext] splits off on a POSIX system: it
    starts at the last dot of the last path component, unless only dots
    come before that dot in the component.  [non_dot] tells whether the
    component read so far has a character other than a dot, [ext] is the
    extension found so far. *)
Fixpoint ext_scan (p : string) (non_dot : bool) (ext : string) : string :=
  match p with
  | EmptyString => ext
  | String c p' =>
      if decide (c = "/"%char) then ext_scan p' false ""
      else if decide (c = "."%char) then
        ext_scan p' non_dot (if non_dot then "." else ext)
      else
        ext_scan p' true (match ext with
                          | EmptyString => ""
                          | _ => ext +:+ String c ""
                          end)
  end.

Definition posix_ext (p : string) : string := ext_scan p false "".

(** A world in local or hosted mode (by [env]) whose folder ["docs"]
    exists; [found] is what a scan returns, [pdf] what the PDF loader does,
    [insert_fails] and [search_fails] tell which calls fail. *)
Definition mk_world (env : gmap string string) (host : string)
    (found : list string) (pdf : exn + string)
    (insert_fails : list chunk → bool) (search_fails : bool) : world :=
  {| environ := env;
     hostname := host;
     strftime := "05 Jan, 2025";
     secrets := ∅;
     dotenv_file := [("OPENAI_API_KEY", "sk-local")];
     path_exists := λ p, String.eqb p "docs";
     scan_folders := λ _, inr found;
     mkdtemp := "/tmp/tmpab12";
     extractall := λ _ _, None;
     splitext := posix_ext;
     run_loader := λ fn file,
       match fn with
       | load_pdf => pdf
       | _ => inr ("text of " +:+ file)
       end;
     chunk_text := λ content file,
       inr (if String.eqb content "" then [] else [Chunk content file]);
     create_collection := λ scope, inr (Collection scope []);
     add_chunks_error := λ chunks _,
       if insert_fails chunks then Some (OtherError "store unavailable") else None;
     create_file_index_chunk := λ files,
       inr [Chunk (String.concat ", " files) "file_index"];
     query_documents := λ c _,
       if search_fails then inl (OtherError "search failed") else inr (coll_chunks c);
     set_langchain_history := λ ms, inr (HumanMessage <$> omap (λ m : message, m !! "content") ms);
     generate_answer := λ _ _ _ _, inr "The sky is blue.";
     set_llm := inr (LlmClient "demo-model") |}.

(** A laptop: no marker variable, documents load and index. *)
Definition laptop (found : list string) : world :=
  mk_world ∅ "laptop" found (inr "text of a pdf") (λ _, false) false.

(** The same laptop with a PDF file that the PDF loader cannot read. *)
Definition corrupt_pdf (found : list string) : world :=
  mk_world ∅ "laptop" found (inl (OtherError "corrupt PDF")) (λ _, false) false.

(** The same laptop with a store that rejects the file-name index and
    nothing else. *)
Definition index_rejected (found : list string) : world :=
  mk_world ∅ "laptop" found (inr "text of a pdf")
    (λ chunks, existsb (λ ch, String.eqb (chunk_source ch) "file_index") chunks)
    false.

(** A hosted deployment: the headless marker is set, uploads extract and
    index. *)
Definition hosted (found : list string) : world :=
  mk_world {[ "STREAMLIT_SERVER_HEADLESS" := "true" ]} "localhost" found
    (inr "text of a pdf") (λ _, false) false.

(** No widget touched: a forced refresh. *)
Definition refresh : events := Events None false "" false false PNone.

(** The user typed [p] and pressed Load Folder. *)
Definition load_folder (p : string) : events := Events None false p true false PNone.

(** The user submitted the question [q]. *)
Definition ask (q : string) : events := Events None false "" false false (PStr q).

(** The user pressed Clear Chat History. *)
Definition clear_chat : events := Events None false "" false true PNone.

(** The user chose the archive [z] and pressed Load ZIP. *)
Definition load_zip (z : uploaded_file) : events :=
  Events (Some z) true "" false false PNone.

End Demo.

(** ** Predicates the statements below use *)

(** The loader of [file] is missing or raises [KeyError]: the two ways the
    [except KeyError] clause of the indexing loop is reached. *)
Definition content_unavailable (w : world) (file : string) : Prop :=
  App.loaders !! splitext w file = None ∨
  ∃ fn key, App.loaders !! splitext w file = Some fn ∧
            run_loader w fn file = inl (KeyError key).

(** The loader of [file] returns a text and [chunk_text] splits it into
    [chunks]. *)
Definition loads (w : world) (file : string) (chunks : list chunk) : Prop :=
  ∃ fn content, App.loaders !! splitext w file = Some fn ∧
                run_loader w fn file = inr content ∧
                chunk_text w content file = inr chunks.

(** The notice of the indexing loop for a file without usable loader. *)
Definition unsupported_notice (file : string) : widget :=
  Write ("File " +:+ file +:+ " not supported. Skipping.").

(** The session state holds nothing of the hosted mode, resp. of the local
    mode. *)
Definition no_upload (s : gmap string value) : Prop :=
  s !! "uploaded_zip" = None ∧ s !! "temp_dir" = None.

Definition no_folder (s : gmap string value) : Prop :=
  s !! "folder_path" = None ∧ s !! "show_popup" = None.

(** The calls the script guards by no [try] do not fail in this world:
    scanning, the loaders (which may still raise [KeyError], the one
    exception the loop catches around them), chunking, the file-name index,
    the conversion of the history, the generation of the answer and the
    creation of the LLM client.  Creating the collection, inserting chunks
    and searching may fail: the script catches those. *)
Record reliable (w : world) : Prop := Reliable {
  scan_ok : ∀ p, ∃ fs, scan_folders w p = inr fs;
  loader_ok : ∀ fn file,
    (∃ text, run_loader w fn file = inr text) ∨
    (∃ key, run_loader w fn file = inl (KeyError key));
  chunk_ok : ∀ content file, ∃ chunks, chunk_text w content file = inr chunks;
  file_index_ok : ∀ fs, ∃ chunks, create_file_index_chunk w fs = inr chunks;
  history_conv_ok : ∀ ms, ∃ hist, set_langchain_history w ms = inr hist;
  answer_ok : ∀ h q found hist, ∃ a, generate_answer w h q found hist = inr a;
  llm_ok : ∃ h, set_llm w = inr h;
  extract_ok : ∀ z dir, extractall w z dir = None
}.

(** [needle] occurs in [hay]. *)
Definition substring (needle hay : string) : Prop :=
  ∃ pre post, hay = pre +:+ needle +:+ post.

(** A well-formed chat turn: the role is ["user"] or ["assistant"] and the
    content is a [str]. *)
Definition turn_ok (m : message) : Prop :=
  (m !! "role" = Some (PStr "user") ∨ m !! "role" = Some (PStr "assistant")) ∧
  ∃ text, m !! "content" = Some (PStr text).

(** The history invariant: [messages], once it exists, is a list of
    well-formed turns. *)
Definition history_ok (s : gmap string value) : Prop :=
  match s !! "messages" with
  | None => True
  | Some (VMsgs ms) => Forall turn_ok ms
  | Some _ => False
  end.


(** The kind of value the script stores under each key. *)
Definition key_type (k : string) (v : value) : bool :=
  match v with
  | VStr _ => bool_decide (k = "folder_path") || bool_decide (k = "temp_dir")
  | VBool _ => bool_decide (k = "show_popup")
  | VFiles _ => bool_decide (k = "files")
  | VZip _ => bool_decide (k = "uploaded_zip")
  | VColl _ => bool_decide (k = "collection")
  | VLlm _ => bool_decide (k = "llm")
  | VMsgs _ => bool_decide (k = "messages")
  end.

(** Every entry of the session state holds the kind of value the script
    stores under its key. *)
Definition session_typed (s : gmap string value) : Prop :=
  ∀ k v, s !! k = Some v → key_type k v = true.

#[global] Instance atom_eq_dec : EqDecision atom.
Proof. solve_decision. Defined.

#[global] Instance widget_eq_dec : EqDecision widget.
Proof. solve_decision. Defined.


(** A step keeps the property [I] of the session state, however it ends. *)
Definition keeps {A} (I : gmap string value → Prop) (m : M A) : Prop :=
  ∀ s, I s → I (final (m s)).

(** Every widget a step shows, in whatever state it starts, has the
    property [P]. *)
Definition shows_only {A} (P : widget → Prop) (m : M A) : Prop :=
  ∀ s x, x ∈ shown (m s) → P x.

(** Writing [v] under [k], and deleting [k], keep the property [I]. *)
Definition write_ok (I : gmap string value → Prop) (k : string) (v : value) : Prop :=
  ∀ s, I s → I (<[k := v]> s).

Definition delete_ok (I : gmap string value → Prop) (k : string) : Prop :=
  ∀ s, I s → I (delete k s).

(** The user commits a new document source in this run: Load ZIP on an
    upload in hosted mode, or Load Folder on an existing path in local mode.
    [k] and [v] are the session key and the value recorded. *)
Inductive commits (w : world) (ev : events) : string → value → Prop :=
| commits_zip z :
    App.is_streamlit_cloud (environ w) = true →
    file_uploader ev = Some z →
    load_zip_clicked ev = true →
    commits w ev "uploaded_zip" (VZip z)
| commits_folder :
    App.is_streamlit_cloud (environ w) = false →
    load_folder_clicked ev = true →
    text_input ev ≠ "" →
    path_exists w (text_input ev) = true →
    commits w ev "folder_path" (VStr (text_input ev)).

(** The turns [handle_chat_input] appends for the question [q] and for the
    answer [a]. *)
Definition user_turn (q : string) : message :=
  {[ "role" := PStr "user"; "content" := PStr q ]}.

Definition assistant_turn (a : string) : message :=
  {[ "role" := PStr "assistant"; "content" := PStr a ]}.

(** What the replay of the history shows for one turn. *)
Definition render_turn (m : message) : widget :=
  ChatMessage (default PNone (m !! "role")) (default PNone (m !! "content")).

(** The notices of the indexing loop and of the file-name index. *)
Definition skip_notice (file : string) : widget :=
  Write ("Error processing file " +:+ file +:+ ". Skipping.").

Definition index_warning : widget :=
  Write "Warning: Could not index file names. You can still search document content.".

(** ** Python strings: [in] is the substring relation *)

Lemma startswith_app (p rest : string) : startswith p (p +:+ rest) = true.
Proof. induction p as [|a p IH]; simpl; [done|]. by rewrite decide_True. Qed.

Lemma startswith_inv (p s : string) :
  startswith p s = true → ∃ rest, s = p +:+ rest.
Proof.
  revert s. induction p as [|a p IH]; intros s H; simpl in *.
  - by exists s.
  - destruct s as [|b s]; [done|]. case_decide; [|done]. subst.
    destruct (IH _ H) as [rest ->]. by exists rest.
Qed.

Lemma str_in_app (needle pre post : string) :
  str_in needle (pre +:+ needle +:+ post) = true.
Proof.
  induction pre as [|c pre IH]; simpl.
  - destruct (needle +:+ post) eqn:E; simpl; rewrite <- ?E;
      rewrite startswith_app; done.
  - rewrite IH. apply orb_true_r.
Qed.

Lemma str_in_inv (needle hay : string) :
  str_in needle hay = true → ∃ pre post, hay = pre +:+ needle +:+ post.
Proof.
  induction hay as [|c hay IH]; simpl; intros H.
  - rewrite orb_false_r in H. apply startswith_inv in H as [rest ->]. by exists "", rest.
  - apply orb_true_iff in H as [H|H].
    + apply startswith_inv in H as [rest ->]. by exists "", rest.
    + destruct (IH H) as (pre & post & ->). by exists (String c pre), post.
Qed.

(** [posix_ext] on the shapes of path [os.path.splitext] tells apart. *)
Example posix_ext_shapes :
  Demo.posix_ext <$> [ "a.txt"; "docs/a.tar.gz"; ".bashrc"; "..a"; "a."; "a.b/c";
                       "x/.hid.pdf"; "noext" ]
  = [ ".txt"; ".gz"; ""; ""; "."; ""; ".pdf"; "" ].
Proof. reflexivity. Qed.

(** ** Deployment detection and secrets *)

(** C4: with none of the four marker variables in the environment and a
    host name that contains "cloud", the detector of app.py answers false
    and the detector of config.py answers true. *)
Theorem detectors_disagree (env : gmap string string) (pre post : string) :
  env !! "STREAMLIT_RUNTIME" = None →
  env !! "STREAMLIT_SHARING_MODE" = None →
  env !! "STREAMLIT_SERVER_HEADLESS" = None →
  env !! "STREAMLIT_HOME" = None →
  App.is_streamlit_cloud env = false ∧
  Config.is_streamlit_cloud env (pre +:+ "cloud" +:+ post) = true.
Proof.
  intros H1 H2 H3 H4. unfold App.is_streamlit_cloud, Config.is_streamlit_cloud.
  rewrite H1, H2, H3, (str_in_app "cloud"). split.
  - done.
  - rewrite orb_true_r. by case_bool_decide.
Qed.

Lemma detectors_disagree_witness :
  App.is_streamlit_cloud ∅ = false ∧
  Config.is_streamlit_cloud ∅ ("my-" +:+ "cloud" +:+ "-vm") = true.
Proof. apply (detectors_disagree ∅ "my-" "-vm"); reflexivity. Defined.

(** C2: in local mode [get_secret] does not return: the name
    [load_dotenv] is bound nowhere in app.py, so the call raises
    [NameError] before the environment is read, whatever the key and the
    default. *)
Theorem get_secret_local_raises (w : world) (key : string) (default : atom) :
  App.is_streamlit_cloud (environ w) = false →
  App.get_secret w key default = (inl (NameError "load_dotenv"), environ w).
Proof. intros H. unfold App.get_secret. rewrite H. reflexivity. Qed.

Lemma get_secret_local_raises_witness :
  App.get_secret (Demo.laptop []) "OPENAI_API_KEY" (PStr "fallback")
  = (inl (NameError "load_dotenv"), ∅).
Proof. apply (get_secret_local_raises (Demo.laptop [])). reflexivity. Defined.

(** In hosted mode the same call returns the secret or the default. *)
Lemma get_secret_hosted (w : world) (key : string) (default : atom) :
  App.is_streamlit_cloud (environ w) = true →
  App.get_secret w key default = (inr (App.get_or (secrets w) key default), environ w).
Proof. intros H. unfold App.get_secret. by rewrite H. Qed.

(** ** Run equations *)

Lemma bind_run {A B} (m : M A) (k : A → M B) (s : gmap string value) :
  (m ≫= k) s =
  match m s with
  | Run (Ret a) s1 o1 => match k a s1 with Run r s2 o2 => Run r s2 (o1 ++ o2) end
  | Run (Sig g) s1 o1 => Run (Sig g) s1 o1
  end.
Proof. reflexivity. Qed.

Lemma has_run (k : string) (s : gmap string value) :
  has k s = Run (Ret (bool_decide (is_Some (s !! k)))) s [].
Proof. reflexivity. Qed.

Lemma del_if_in_run (k : string) (s : gmap string value) :
  del_if_in k s = Run (Ret tt) (delete k s) [].
Proof.
  unfold del_if_in. rewrite bind_run. unfold has, when, delattr.
  destruct (s !! k) eqn:E; simpl.
  - by rewrite E.
  - unfold mret, M_ret. by rewrite delete_id.
Qed.

(** What a step shows stays on screen whatever follows it. *)
Lemma shown_bind {A B} (m : M A) (k : A → M B) (s : gmap string value) :
  ∃ later, shown ((m ≫= k) s) = (shown (m s) ++ later)%list.
Proof.
  rewrite bind_run. destruct (m s) as [[a|g] s1 o1]; simpl.
  - destruct (k a s1) as [r s2 o2]; simpl. by exists o2.
  - exists []. by rewrite app_nil_r.
Qed.

Lemma try_run {A} (m : M A) (h : exn → option (M A)) (s : gmap string value) :
  try_except m h s =
  match m s with
  | Run (Sig (Raise e)) s1 o1 =>
      match h e with
      | Some m' => match m' s1 with Run r s2 o2 => Run r s2 (o1 ++ o2) end
      | None => Run (Sig (Raise e)) s1 o1
      end
  | r => r
  end.
Proof. reflexivity. Qed.

Lemma getattr_run (k : string) (s : gmap string value) :
  getattr k s =
  match s !! k with
  | Some v => Run (Ret v) s []
  | None => Run (Sig (Raise (AttributeError k))) s []
  end.
Proof. reflexivity. Qed.

(** The two loops are unfolded by their equations only. *)
Arguments App.index_files : simpl never.
Arguments App.replay : simpl never.

Lemma index_files_nil (w : world) (total i : nat) (c : vcollection) :
  App.index_files w total i [] c = mret c.
Proof. reflexivity. Qed.

Lemma index_files_cons (w : world) (total i : nat) (file : string)
    (rest : list string) (c : vcollection) :
  App.index_files w total i (file :: rest) c =
  (show (Progress (S i) total);;
   content ← App.load_content w file;
   chunks ← call (chunk_text w content file);
   c' ← App.insert_chunks w file chunks c;
   App.index_files w total (S i) rest c').
Proof. reflexivity. Qed.

(** Rewrites with the lookups of the session state that are known. *)
Ltac use_lookups :=
  repeat match goal with
    | H : ?s !! ?k = _ |- context [?s !! ?k] => rewrite H
    end;
  rewrite ?lookup_insert_eq;
  rewrite ?lookup_insert_ne by done;
  rewrite ?lookup_delete_eq;
  rewrite ?lookup_delete_ne by done.

(** Case analysis on the first step whose result is not known. *)
Ltac innermost_match x :=
  lazymatch x with
  | context [match ?y with _ => _ end] => innermost_match y
  | _ => x
  end.

Ltac case_step :=
  match goal with
  | |- context [match ?x with _ => _ end] =>
      let y := innermost_match x in
      destruct y as [[?|[| |?]] ? ?] eqn:?
  end.

(** Membership in a screen, widget by widget. *)
Ltac list_mem :=
  repeat (rewrite elem_of_cons || rewrite elem_of_app || rewrite elem_of_nil).

(** Unfolds the steps of a run one after the other. *)
Ltac run_steps :=
  repeat (progress (rewrite ?bind_run, ?try_run, ?del_if_in_run, ?getattr_run;
                    use_lookups; simpl)).

(** ** The sidebar: committing and rejecting a source *)

(** A commit ends the run at the [st.rerun()] of the sidebar, with the new
    source recorded and the two index entries gone. *)
Lemma commit_run (w : world) (ev : events) (s : gmap string value)
    (k : string) (v : value) :
  commits w ev k v →
  ∃ screen,
    App.script w ev s =
    Run (Sig Rerun) (delete "files" (delete "collection" (<[k := v]> s))) screen.
Proof.
  intros [z Hmode Hup Hclick | Hmode Hclick Hne Hex];
    unfold App.script, App.render_sidebar; rewrite Hmode.
  - rewrite Hup, Hclick. run_steps. eauto.
  - apply String.eqb_neq in Hne. rewrite Hclick, Hex, Hne. run_steps. eauto.
Qed.

(** C9: committing a new source (Load ZIP on an upload, Load Folder on an
    existing path) ends the run with the source recorded and the collection
    and files entries deleted; every other entry of the session state, among
    them messages, llm, temp_dir and show_popup, is as it was. *)
Theorem source_commit_frame (w : world) (ev : events) (s : gmap string value)
    (k : string) (v : value) :
  commits w ev k v →
  let r := App.script w ev s in
  outcome r = Sig Rerun ∧
  final r !! k = Some v ∧
  final r !! "collection" = None ∧
  final r !! "files" = None ∧
  (∀ k', k' ≠ k → k' ≠ "collection" → k' ≠ "files" → final r !! k' = s !! k') ∧
  final r !! "messages" = s !! "messages" ∧
  final r !! "llm" = s !! "llm" ∧
  final r !! "temp_dir" = s !! "temp_dir" ∧
  final r !! "show_popup" = s !! "show_popup".
Proof.
  intros Hc. destruct (commit_run w ev s k v Hc) as [screen Hrun].
  assert (k = "uploaded_zip" ∨ k = "folder_path") as Hk
    by (destruct Hc; auto).
  simpl. rewrite Hrun. simpl.
  assert (∀ k', k' ≠ k → k' ≠ "collection" → k' ≠ "files" →
            delete "files" (delete "collection" (<[k := v]> s)) !! k' = s !! k')
    as Hframe.
  { intros k' H1 H2 H3.
    by rewrite lookup_delete_ne, lookup_delete_ne, lookup_insert_ne. }
  split; [done|]. split.
  { destruct Hk as [-> | ->];
      by rewrite lookup_delete_ne, lookup_delete_ne, lookup_insert_eq. }
  split; [by rewrite lookup_delete_ne, lookup_delete_eq|].
  split; [by rewrite lookup_delete_eq|].
  split; [done|].
  repeat split; apply Hframe; destruct Hk as [-> | ->]; done.
Qed.

Lemma source_commit_frame_witness :
  let s : gmap string value :=
    {[ "folder_path" := VStr "old"; "files" := VFiles ["old/a.txt"];
       "collection" := VColl (Collection "old" []);
       "messages" := VMsgs [ {[ "role" := PStr "user"; "content" := PStr "hi" ]} ];
       "llm" := VLlm (LlmClient "demo-model"); "show_popup" := VBool true ]} in
  let r := App.script (Demo.laptop []) (Demo.load_folder "docs") s in
  final r !! "folder_path" = Some (VStr "docs") ∧
  final r !! "collection" = None ∧
  final r !! "messages" = s !! "messages" ∧
  final r !! "llm" = s !! "llm".
Proof.
  intros s r.
  assert (commits (Demo.laptop []) (Demo.load_folder "docs") "folder_path" (VStr "docs"))
    as Hc by (by apply (commits_folder (Demo.laptop []) (Demo.load_folder "docs"))).
  destruct (source_commit_frame _ _ s _ _ Hc) as (_ & H1 & H2 & _ & _ & H3 & H4 & _).
  done.
Defined.

(** With a folder recorded, files found in it and no collection in the
    session state, a run in which no button is pressed creates the
    collection and starts indexing. *)
Lemma run_without_collection_indexes (w : world) (ev : events)
    (s : gmap string value) (p f : string) (fs : list string) (c0 : vcollection) :
  App.is_streamlit_cloud (environ w) = false →
  load_folder_clicked ev = false →
  clear_chat_clicked ev = false →
  s !! "folder_path" = Some (VStr p) →
  s !! "files" = None →
  s !! "collection" = None →
  scan_folders w p = inr (f :: fs) →
  create_collection w p = inr c0 →
  Spinner "Indexing documents..." ∈ shown (App.script w ev s).
Proof.
  intros Hmode Hload Hclear Hpath Hfiles Hcoll Hscan Hcreate.
  unfold App.script, App.render_sidebar, App.resolve_source.
  rewrite Hmode, Hload, Hclear. run_steps.
  rewrite Hscan. run_steps.
  unfold App.initialize_vector_store. run_steps.
  rewrite Hcreate. run_steps.
  repeat (case_step; run_steps; try set_solver).
Qed.

(** C6: Load Folder on a non-empty path that exists ends the run at the
    sidebar's [st.rerun()] with the path recorded and the collection and
    files entries absent (whether or not the path differs from the recorded
    one); the next run that finds files in the folder then creates the
    collection and indexes again. *)
Theorem load_folder_invalidates (w : world) (ev : events) (s : gmap string value) :
  App.is_streamlit_cloud (environ w) = false →
  load_folder_clicked ev = true →
  text_input ev ≠ "" →
  path_exists w (text_input ev) = true →
  let r := App.script w ev s in
  outcome r = Sig Rerun ∧
  final r = delete "files" (delete "collection" (<["folder_path" := VStr (text_input ev)]> s)) ∧
  final r !! "folder_path" = Some (VStr (text_input ev)) ∧
  final r !! "collection" = None ∧
  final r !! "files" = None ∧
  ∀ (w' : world) (ev' : events) (f : string) (fs : list string) (c0 : vcollection),
    App.is_streamlit_cloud (environ w') = false →
    load_folder_clicked ev' = false →
    clear_chat_clicked ev' = false →
    scan_folders w' (text_input ev) = inr (f :: fs) →
    create_collection w' (text_input ev) = inr c0 →
    Spinner "Indexing documents..." ∈ shown (App.script w' ev' (final r)).
Proof.
  intros Hmode Hclick Hne Hex.
  destruct (commit_run w ev s _ _ (commits_folder w ev Hmode Hclick Hne Hex))
    as [screen Hrun].
  simpl. rewrite Hrun. simpl.
  assert (delete "files" (delete "collection"
            (<["folder_path" := VStr (text_input ev)]> s)) !! "folder_path"
          = Some (VStr (text_input ev))) as Hpath
    by (by rewrite lookup_delete_ne, lookup_delete_ne, lookup_insert_eq).
  assert (delete "files" (delete "collection"
            (<["folder_path" := VStr (text_input ev)]> s)) !! "collection" = None)
    as Hcoll by (by rewrite lookup_delete_ne, lookup_delete_eq).
  assert (delete "files" (delete "collection"
            (<["folder_path" := VStr (text_input ev)]> s)) !! "files" = None)
    as Hfiles by (by rewrite lookup_delete_eq).
  repeat split; try done.
  intros w' ev' f fs c0 Hmode' Hload' Hclear' Hscan Hcreate.
  by apply (run_without_collection_indexes w' ev' _ (text_input ev) f fs c0).
Qed.

Lemma load_folder_invalidates_witness :
  let s : gmap string value :=
    {[ "folder_path" := VStr "old"; "files" := VFiles ["old/a.txt"];
       "collection" := VColl (Collection "old" []) ]} in
  let r := App.script (Demo.laptop ["docs/a.txt"]) (Demo.load_folder "docs") s in
  outcome r = Sig Rerun ∧
  final r !! "folder_path" = Some (VStr "docs") ∧
  final r !! "collection" = None ∧
  final r !! "files" = None ∧
  Spinner "Indexing documents..."
    ∈ shown (App.script (Demo.laptop ["docs/a.txt"]) Demo.refresh (final r)).
Proof.
  intros s r.
  destruct (load_folder_invalidates (Demo.laptop ["docs/a.txt"])
              (Demo.load_folder "docs") s)
    as (H1 & _ & H2 & H3 & H4 & H5); try reflexivity; try done.
  repeat split; try done.
  by apply (H5 (Demo.laptop ["docs/a.txt"]) Demo.refresh "docs/a.txt" []
              (Collection "docs" [])).
Defined.

(** C8: Load Folder on a non-empty path that does not exist shows the error
    notice and leaves files and folder_path absent; the sidebar returns
    normally (or reruns, when Clear Chat History is pressed too), and the
    run as a whole then halts at [st.stop()] or [st.rerun()]: no exception
    leaves the script. *)
Theorem missing_folder_clears_source (w : world) (ev : events) (s : gmap string value) :
  App.is_streamlit_cloud (environ w) = false →
  load_folder_clicked ev = true →
  text_input ev ≠ "" →
  path_exists w (text_input ev) = false →
  let r := App.render_sidebar w ev s in
  Error "Folder not found. Please check the path." ∈ shown r ∧
  final r !! "files" = None ∧
  final r !! "folder_path" = None ∧
  (outcome r = Ret tt ∨ outcome r = Sig Rerun) ∧
  (s !! "uploaded_zip" = None →
   let r' := App.script w ev s in
   Error "Folder not found. Please check the path." ∈ shown r' ∧
   final r' !! "files" = None ∧
   final r' !! "folder_path" = None ∧
   (outcome r' = Sig Stop ∨ outcome r' = Sig Rerun)).
Proof.
  intros Hmode Hclick Hne Hex. apply String.eqb_neq in Hne.
  unfold App.script, App.resolve_source, App.render_sidebar.
  rewrite Hmode, Hclick, Hex, Hne.
  destruct (clear_chat_clicked ev); run_steps.
  - repeat split; try set_solver; auto.
  - do 4 (split; [set_solver || auto|]).
    intros Hzip. rewrite Hzip. run_steps.
    repeat split; try set_solver; auto.
Qed.

Lemma missing_folder_clears_source_witness :
  let s : gmap string value :=
    {[ "folder_path" := VStr "docs"; "files" := VFiles ["docs/a.txt"] ]} in
  let r := App.script (Demo.laptop []) (Demo.load_folder "nowhere") s in
  Error "Folder not found. Please check the path." ∈ shown r ∧
  final r !! "files" = None ∧
  final r !! "folder_path" = None ∧
  (outcome r = Sig Stop ∨ outcome r = Sig Rerun).
Proof.
  intros s r.
  destruct (missing_folder_clears_source (Demo.laptop [])
              (Demo.load_folder "nowhere") s) as (_ & _ & _ & _ & H);
    try reflexivity; try done.
  by apply H.
Defined.

(** ** Chat handling *)

(** C5: when the similarity search raises for a submitted question, the
    chat handler ends at [st.stop()] after showing the question and the
    notice; the history is the previous one followed by the user turn of
    that question, with no assistant turn after it. *)
Theorem retrieval_failure_leaves_user_turn (w : world) (ev : events)
    (s : gmap string value) (c : vcollection) (llm : value) (q : string)
    (ms : list message) (e : exn) :
  chat_input ev = PStr q →
  q ≠ "" →
  s !! "messages" = Some (VMsgs ms) →
  query_documents w c (PStr q) = inl e →
  let r := App.handle_chat_input w ev (VColl c) llm s in
  outcome r = Sig Stop ∧
  final r = <["messages" := VMsgs (ms ++ [user_turn q])]> s ∧
  final r !! "messages" = Some (VMsgs (ms ++ [user_turn q])) ∧
  last (ms ++ [user_turn q]) = Some (user_turn q) ∧
  shown r = [ ChatInput "Ask your question";
              ChatMessage (PStr "user") (PStr q);
              Info "Error searching documents. Please try again." ].
Proof.
  intros Hin Hq Hms Hfail. apply String.eqb_neq in Hq.
  unfold App.handle_chat_input, append_message. rewrite Hin. simpl. rewrite Hq.
  run_steps. rewrite Hfail. run_steps.
  repeat split; try done.
  by rewrite last_snoc.
Qed.

Lemma retrieval_failure_leaves_user_turn_witness :
  let w := Demo.mk_world ∅ "laptop" ["docs/a.txt"] (inr "pdf") (λ _, false) true in
  let s : gmap string value := {[ "messages" := VMsgs [] ]} in
  let r := App.handle_chat_input w (Demo.ask "What color is the sky?")
             (VColl (Collection "docs" [])) (VLlm (LlmClient "demo-model")) s in
  outcome r = Sig Stop ∧
  final r !! "messages" = Some (VMsgs [user_turn "What color is the sky?"]).
Proof.
  intros w s r.
  destruct (retrieval_failure_leaves_user_turn w (Demo.ask "What color is the sky?")
              s (Collection "docs" []) (VLlm (LlmClient "demo-model"))
              "What color is the sky?" [] (OtherError "search failed"))
    as (H1 & _ & H2 & _); try reflexivity; try done.
Defined.

(** ** Indexing *)

Lemma load_content_run (w : world) (file : string) (s : gmap string value) :
  ∃ r o, ∀ s', App.load_content w file s' = Run r s' o.
Proof.
  unfold App.load_content, item.
  destruct (App.loaders !! splitext w file) as [fn|] eqn:Hfn.
  - destruct (run_loader w fn file) as [e|text] eqn:Hrun.
    + destruct (is_KeyError e) eqn:He.
      * eexists _, _. intros s'. run_steps. rewrite Hrun. simpl. rewrite He.
        run_steps. reflexivity.
      * eexists _, _. intros s'. run_steps. rewrite Hrun. simpl. rewrite He.
        reflexivity.
    + eexists _, _. intros s'. run_steps. rewrite Hrun. reflexivity.
  - eexists _, _. intros s'. run_steps. reflexivity.
Qed.

Lemma load_content_final (w : world) (file : string) (s : gmap string value) :
  final (App.load_content w file s) = s.
Proof. destruct (load_content_run w file s) as (r & o & H). by rewrite H. Qed.

Lemma load_content_outcome (w : world) (file : string) (s s' : gmap string value) :
  outcome (App.load_content w file s) = outcome (App.load_content w file s').
Proof. destruct (load_content_run w file s) as (r & o & H). by rewrite !H. Qed.

(** The [if chunks:] block either inserts the chunks, silently, or keeps
    the collection and shows the notice that names the file. *)
Lemma insert_chunks_run (w : world) (file : string) (cs : list chunk)
    (c : vcollection) (s : gmap string value) :
  App.insert_chunks w file cs c s
    = Run (Ret (Collection (coll_scope c) (coll_chunks c ++ cs))) s [] ∨
  App.insert_chunks w file cs c s = Run (Ret c) s [skip_notice file].
Proof.
  destruct cs as [|ch cs].
  - left. simpl. rewrite app_nil_r. by destruct c.
  - unfold App.insert_chunks, App.add_chunks.
    destruct (add_chunks_error w (ch :: cs) c) as [e|] eqn:He.
    + right. rewrite try_run. simpl. by destruct e.
    + left. rewrite try_run. reflexivity.
Qed.

(** The loop never writes the session state. *)
Lemma index_files_final (w : world) (total : nat) (fs : list string) :
  ∀ (i : nat) (c0 : vcollection) (s : gmap string value),
    final (App.index_files w total i fs c0 s) = s.
Proof.
  induction fs as [|file rest IH]; intros i c0 s; [done|].
  rewrite index_files_cons. run_steps.
  destruct (load_content_run w file s) as (r & o & Hload). rewrite Hload.
  destruct r as [content|g]; simpl; [|done].
  rewrite bind_run.
  destruct (chunk_text w content file) as [e|cs]; simpl; [done|].
  rewrite bind_run.
  destruct (insert_chunks_run w file cs c0 s) as [-> | ->]; simpl.
  - specialize (IH (S i) (Collection (coll_scope c0) (coll_chunks c0 ++ cs)) s).
    destruct (App.index_files _ _ _ _ _ _); simpl in *. done.
  - specialize (IH (S i) c0 s).
    destruct (App.index_files _ _ _ _ _ _); simpl in *. done.
Qed.

(** When the loop returns, the collection it returns extends the one it
    started from, and holds the chunks of every file for which no
    "Error processing file" notice was shown. *)
Lemma index_files_result (w : world) (total : nat) (fs : list string) :
  ∀ (i : nat) (c0 c : vcollection) (s : gmap string value),
    outcome (App.index_files w total i fs c0 s) = Ret c →
    coll_scope c = coll_scope c0 ∧
    (∃ added, coll_chunks c = (coll_chunks c0 ++ added)%list) ∧
    ∀ file content cs,
      file ∈ fs →
      outcome (App.load_content w file s) = Ret content →
      chunk_text w content file = inr cs →
      skip_notice file ∉ shown (App.index_files w total i fs c0 s) →
      ∀ ch, ch ∈ cs → ch ∈ coll_chunks c.
Proof.
  induction fs as [|file rest IH]; intros i c0 c s.
  - rewrite index_files_nil. simpl. intros [= <-].
    split; [done|]. split; [exists []; by rewrite app_nil_r|].
    intros ??? Hin. by apply not_elem_of_nil in Hin.
  - rewrite index_files_cons. run_steps.
    destruct (load_content_run w file s) as (r & o & Hload).
    rewrite Hload. destruct r as [content|g]; simpl; [|done].
    rewrite bind_run.
    destruct (chunk_text w content file) as [e|cs] eqn:Hchunk; simpl; [done|].
    rewrite bind_run.
    destruct (insert_chunks_run w file cs c0 s) as [-> | ->]; simpl.
    + specialize (IH (S i) (Collection (coll_scope c0) (coll_chunks c0 ++ cs)) c s).
      destruct (App.index_files _ _ _ _ _ _) as [r2 s2 o2]; simpl in *.
      intros Hr. destruct (IH Hr) as (Hscope & [added Hadd] & Hfiles).
      split; [done|]. split; [exists (cs ++ added)%list; by rewrite Hadd, app_assoc|].
      intros file' content' cs' Hin Hload' Hchunk' Hshown ch Hch.
      apply elem_of_cons in Hin as [-> | Hin].
      * rewrite Hload in Hload'. simpl in Hload'. injection Hload' as <-.
        rewrite Hchunk in Hchunk'. injection Hchunk' as <-.
        rewrite Hadd, !elem_of_app. auto.
      * apply (Hfiles file' content' cs'); try done.
        intros Hin'. apply Hshown. rewrite elem_of_cons, elem_of_app. auto.
    + specialize (IH (S i) c0 c s).
      destruct (App.index_files _ _ _ _ _ _) as [r2 s2 o2]; simpl in *.
      intros Hr. destruct (IH Hr) as (Hscope & Hadd & Hfiles).
      split; [done|]. split; [done|].
      intros file' content' cs' Hin Hload' Hchunk' Hshown ch Hch.
      apply elem_of_cons in Hin as [-> | Hin].
      * exfalso. apply Hshown. rewrite elem_of_cons, elem_of_app, elem_of_cons. auto.
      * apply (Hfiles file' content' cs'); try done.
        intros Hin'. apply Hshown. rewrite elem_of_cons, elem_of_app, elem_of_cons. auto.
Qed.

(** ** Replay of the history and a chat turn on an indexed source *)

Lemma replay_cons (m : message) (rest : list message) :
  App.replay (m :: rest) =
  (role ← item m "role";
   content ← item m "content";
   show (ChatMessage role content);;
   App.replay rest).
Proof. reflexivity. Qed.

(** A well-formed history replays without an exception and leaves the
    session state alone. *)
Lemma replay_ok (ms : list message) (s : gmap string value) :
  Forall turn_ok ms →
  App.replay ms s = Run (Ret tt) s (render_turn <$> ms).
Proof.
  induction 1 as [|m rest [Hrole [text Htext]] _ IH]; [done|].
  rewrite replay_cons. unfold item. rewrite fmap_cons. unfold render_turn at 1.
  rewrite Htext.
  destruct Hrole as [Hr | Hr]; rewrite Hr; run_steps; by rewrite IH.
Qed.

(** Once a collection is in the session state, a run in local mode on a
    folder that still holds files does not index again: it answers the
    submitted question from that collection and appends both turns. *)
Lemma chat_on_stored_collection (w : world) (ev : events) (s : gmap string value)
    (p f q answer : string) (fs old : list string) (c : vcollection)
    (h : llm_client) (ms : list message) (found : list chunk)
    (hist : list lc_message) :
  App.is_streamlit_cloud (environ w) = false →
  load_folder_clicked ev = false →
  clear_chat_clicked ev = false →
  chat_input ev = PStr q →
  q ≠ "" →
  s !! "folder_path" = Some (VStr p) →
  s !! "files" = Some (VFiles old) →
  s !! "collection" = Some (VColl c) →
  (s !! "llm" = Some (VLlm h) ∨ (s !! "llm" = None ∧ set_llm w = inr h)) →
  (s !! "messages" = Some (VMsgs ms) ∨ (s !! "messages" = None ∧ ms = [])) →
  Forall turn_ok ms →
  scan_folders w p = inr (f :: fs) →
  query_documents w c (PStr q) = inr found →
  set_langchain_history w (ms ++ [user_turn q]) = inr hist →
  generate_answer w h (PStr q) found hist = inr answer →
  let r := App.script w ev s in
  outcome r = Ret tt ∧
  final r !! "collection" = Some (VColl c) ∧
  final r !! "messages" = Some (VMsgs (ms ++ [user_turn q; assistant_turn answer])) ∧
  (Spinner "Indexing documents..." ∉ shown r) ∧
  ChatMessage (PStr "assistant") (PStr answer) ∈ shown r.
Proof.
  intros Hmode Hload Hclear Hin Hq Hpath Hfiles Hcoll Hllm Hmsgs Hok
    Hscan Hquery Hhist Hanswer.
  apply String.eqb_neq in Hq.
  cut (∃ s' o,
         App.script w ev s = Run (Ret tt) s' o ∧
         s' !! "collection" = Some (VColl c) ∧
         s' !! "messages"
           = Some (VMsgs (ms ++ [user_turn q; assistant_turn answer])) ∧
         (Spinner "Indexing documents..." ∉ o) ∧
         ChatMessage (PStr "assistant") (PStr answer) ∈ o).
  { intros (s' & o & -> & H). exact (conj eq_refl H). }
  assert (Spinner "Indexing documents..." ∉ render_turn <$> ms) as Hreplay.
  { rewrite list_elem_of_fmap. by intros (m & Hm & _). }
  unfold App.script, App.render_sidebar, App.resolve_source.
  rewrite Hmode, Hload, Hclear.
  destruct Hllm as [Hllm | [Hllm Hset]], Hmsgs as [Hmsgs | [Hmsgs ->]].
  all: rewrite ?app_nil_l in Hhist.
  all: eexists _, _; split;
    [ run_steps; rewrite Hscan; run_steps;
      unfold App.initialize_vector_store; run_steps;
      rewrite ?Hset; run_steps;
      rewrite ?(replay_ok _ _ Hok); run_steps;
      unfold App.handle_chat_input, append_message; rewrite Hin; simpl;
      rewrite Hq; run_steps; rewrite Hquery; run_steps;
      fold (user_turn q); rewrite Hhist; run_steps;
      rewrite Hanswer; run_steps; reflexivity
    | ].
  all: use_lookups; rewrite <- ?(assoc_L (++)); simpl.
  all: split; [done|]; split; [done|].
  all: rewrite ?fmap_nil in Hreplay.
  all: split; [|list_mem; auto 20].
  all: intros Hin'; revert Hin'; list_mem; intros Hin'.
  all: repeat match goal with H : _ ∨ _ |- _ => destruct H as [H | H] end; done.
Qed.

(** With a collection in the session state, [initialize_vector_store]
    does nothing: indexing counts as done. *)
Lemma initialize_with_collection (w : world) (folder_path files v : value)
    (s : gmap string value) :
  s !! "collection" = Some v →
  App.initialize_vector_store w folder_path files s = Run (Ret tt) s [].
Proof. intros H. unfold App.initialize_vector_store. by run_steps. Qed.

(** C7: when the loop over the files has returned the collection [c] and
    the insertion of the file-name index then fails, the warning is the last
    thing shown, [c] is stored in the session state and the run ends at
    [st.rerun()].  [c] extends the collection that was created and holds the
    chunks of every file for which no "Error processing file" notice was
    shown; later runs do not index again, and a question submitted in a
    later run is answered from [c]. *)
Theorem file_index_failure_keeps_collection (w : world) (s : gmap string value)
    (p : string) (fs : list string) (c0 c : vcollection) (fi : list chunk) (e : exn) :
  s !! "collection" = None →
  create_collection w p = inr c0 →
  outcome (App.index_files w (length fs) 0 fs c0 s) = Ret c →
  create_file_index_chunk w fs = inr fi →
  add_chunks_error w fi c = Some e →
  let r := App.initialize_vector_store w (VStr p) (VFiles fs) s in
  outcome r = Sig Rerun ∧
  last (shown r) = Some index_warning ∧
  final r = <["collection" := VColl c]> s ∧
  (∃ added, coll_chunks c = (coll_chunks c0 ++ added)%list) ∧
  (∀ file content cs,
     file ∈ fs →
     outcome (App.load_content w file s) = Ret content →
     chunk_text w content file = inr cs →
     skip_notice file ∉ shown r →
     ∀ ch, ch ∈ cs → ch ∈ coll_chunks c) ∧
  (∀ w' folder_path files,
     App.initialize_vector_store w' folder_path files (final r)
     = Run (Ret tt) (final r) []) ∧
  (∀ (w' : world) (ev' : events) (f q answer : string) (fs' : list string)
     (h : llm_client) (ms : list message) (found : list chunk)
     (hist : list lc_message),
     App.is_streamlit_cloud (environ w') = false →
     load_folder_clicked ev' = false →
     clear_chat_clicked ev' = false →
     chat_input ev' = PStr q →
     q ≠ "" →
     s !! "folder_path" = Some (VStr p) →
     s !! "files" = Some (VFiles fs) →
     (s !! "llm" = Some (VLlm h) ∨ (s !! "llm" = None ∧ set_llm w' = inr h)) →
     (s !! "messages" = Some (VMsgs ms) ∨ (s !! "messages" = None ∧ ms = [])) →
     Forall turn_ok ms →
     scan_folders w' p = inr (f :: fs') →
     query_documents w' c (PStr q) = inr found →
     set_langchain_history w' (ms ++ [user_turn q]) = inr hist →
     generate_answer w' h (PStr q) found hist = inr answer →
     let r' := App.script w' ev' (final r) in
     outcome r' = Ret tt ∧
     final r' !! "collection" = Some (VColl c) ∧
     final r' !! "messages"
       = Some (VMsgs (ms ++ [user_turn q; assistant_turn answer])) ∧
     ChatMessage (PStr "assistant") (PStr answer) ∈ shown r').
Proof.
  intros Hcoll Hcreate Hloop Hfi Hfail.
  pose proof (index_files_final w (length fs) fs 0 c0 s) as Hfinal.
  pose proof (index_files_result w (length fs) fs 0 c0 c s Hloop)
    as (_ & Hadd & Hchunks).
  assert (∃ o,
    App.initialize_vector_store w (VStr p) (VFiles fs) s
      = Run (Sig Rerun) (<["collection" := VColl c]> s)
          (Spinner "Indexing documents..." :: Progress 0 1 :: o ++ [index_warning]) ∧
    shown (App.index_files w (length fs) 0 fs c0 s) = o) as (o & Hrun & Ho).
  { unfold App.initialize_vector_store. run_steps. rewrite Hcreate. run_steps.
    destruct (App.index_files w (length fs) 0 fs c0 s) as [r1 s1 o1].
    simpl in *. subst r1 s1. run_steps. rewrite Hfi. run_steps.
    unfold App.add_chunks. rewrite Hfail. run_steps.
    by exists o1. }
  simpl. rewrite Hrun. simpl.
  split; [done|]. split.
  { change (last ((Spinner "Indexing documents..." :: Progress 0 1 :: o)
                    ++ [index_warning]) = Some index_warning).
    apply last_snoc. }
  split; [done|]. split; [done|]. split.
  { intros file content cs Hin Hload Hchunk Hshown.
    apply (Hchunks file content cs Hin Hload Hchunk).
    rewrite Ho. intros Hin'. apply Hshown.
    rewrite !elem_of_cons, elem_of_app. auto. }
  split.
  { intros w' folder_path files.
    apply (initialize_with_collection _ _ _ (VColl c)). by rewrite lookup_insert_eq. }
  intros w' ev' f q answer fs' h ms found hist Hmode Hload Hclear Hin Hq
    Hpath Hfiles Hllm Hmsgs Hok Hscan Hquery Hhist Hanswer.
  destruct (chat_on_stored_collection w' ev' (<["collection" := VColl c]> s)
              p f q answer fs' fs c h ms found hist) as (H1 & H2 & H3 & _ & H4);
    try done; rewrite ?lookup_insert_eq, ?lookup_insert_ne by done; done.
Qed.

Lemma file_index_failure_keeps_collection_witness :
  let fs := ["docs/a.txt"; "docs/b.pdf"] in
  let s : gmap string value :=
    {[ "folder_path" := VStr "docs"; "files" := VFiles fs ]} in
  let r := App.initialize_vector_store (Demo.index_rejected fs)
             (VStr "docs") (VFiles fs) s in
  outcome r = Sig Rerun ∧
  last (shown r) = Some index_warning ∧
  final r !! "collection"
    = Some (VColl (Collection "docs"
                     [ Chunk "text of docs/a.txt" "docs/a.txt";
                       Chunk "text of a pdf" "docs/b.pdf" ])).
Proof.
  intros fs s r.
  destruct (file_index_failure_keeps_collection (Demo.index_rejected fs) s "docs" fs
              (Collection "docs" [])
              (Collection "docs"
                 [ Chunk "text of docs/a.txt" "docs/a.txt";
                   Chunk "text of a pdf" "docs/b.pdf" ])
              [ Chunk "docs/a.txt, docs/b.pdf" "file_index" ]
              (OtherError "store unavailable"))
    as (H1 & H2 & H3 & _); try reflexivity.
  repeat split; done.
Defined.

(** An exception of a loader other than [KeyError] is caught nowhere: it
    ends the loop, and with it the run, at the file that raised it. *)
Lemma loader_exception_escapes (w : world) (total i : nat) (file : string)
    (rest : list string) (c : vcollection) (s : gmap string value)
    (fn : loader) (e : exn) :
  App.loaders !! splitext w file = Some fn →
  run_loader w fn file = inl e →
  is_KeyError e = false →
  App.index_files w total i (file :: rest) c s
  = Run (Sig (Raise e)) s [Progress (S i) total].
Proof.
  intros Hfn Hrun He. rewrite index_files_cons. run_steps.
  unfold App.load_content, item. rewrite Hfn. run_steps. rewrite Hrun. simpl.
  by rewrite He.
Qed.

(** C1 fails on the code: with three files of which the second is a PDF its
    loader cannot read, the run ends with that loader's exception uncaught.
    No notice names the file, the third file is never reached and no
    collection is stored. *)
Theorem loader_failure_aborts_indexing :
  let fs := ["docs/a.txt"; "docs/b.pdf"; "docs/c.txt"] in
  let s : gmap string value := {[ "folder_path" := VStr "docs" ]} in
  let r := App.script (Demo.corrupt_pdf fs) Demo.refresh s in
  outcome r = Sig (Raise (OtherError "corrupt PDF")) ∧
  final r !! "collection" = None ∧
  shown r =
    [ Title "Chat with your documents!"; Write "05 Jan, 2025";
      Title "📁 Document Settings"; TextInput "Enter folder path:";
      Button "Load Folder"; Markdown "---"; Success "📂 **Current Folder:**";
      Code "docs"; Markdown "---"; Button "🗑️ Clear Chat History";
      Spinner "Indexing documents..."; Progress 0 1; Progress 1 3; Progress 2 3 ].
Proof. vm_compute. done. Qed.

(** ** The empty-folder notice *)


(** The screens of a session of three runs: the user loads an existing
    folder without supported files, the forced refresh shows the notice, and
    the next run of the same session shows it again. *)
Example empty_folder_screens :
  let w := Demo.laptop [] in
  App.session [ (w, Demo.load_folder "docs"); (w, Demo.refresh); (w, Demo.refresh) ] ∅
  = ( {[ "folder_path" := VStr "docs"; "show_popup" := VBool true ]},
      [ [ Title "Chat with your documents!"; Write "05 Jan, 2025";
          Title "📁 Document Settings"; TextInput "Enter folder path:";
          Button "Load Folder" ];
        [ Title "Chat with your documents!"; Write "05 Jan, 2025";
          Title "📁 Document Settings"; TextInput "Enter folder path:";
          Button "Load Folder"; Markdown "---"; Success "📂 **Current Folder:**";
          Code "docs"; Markdown "---"; Button "🗑️ Clear Chat History";
          Info "No documents found" ];
        [ Title "Chat with your documents!"; Write "05 Jan, 2025";
          Title "📁 Document Settings"; TextInput "Enter folder path:";
          Button "Load Folder"; Markdown "---"; Success "📂 **Current Folder:**";
          Code "docs"; Markdown "---"; Button "🗑️ Clear Chat History";
          Info "No documents found" ] ] ).
Proof. vm_compute. done. Qed.

(** ** Properties of the session state that every step keeps *)

Section keeps.
Context (I : gmap string value → Prop).

Lemma keeps_ret {A} (a : A) : keeps I (mret a).
Proof. by intros s. Qed.

Lemma keeps_bind {A B} (m : M A) (k : A → M B) :
  keeps I m → (∀ a, keeps I (k a)) → keeps I (m ≫= k).
Proof.
  intros Hm Hk s Hs. rewrite bind_run. specialize (Hm s Hs).
  destruct (m s) as [[a|g] s1 o1]; simpl in *; [|done].
  specialize (Hk a s1 Hm). by destruct (k a s1).
Qed.

Lemma keeps_try {A} (m : M A) (h : exn → option (M A)) :
  keeps I m → (∀ e m', h e = Some m' → keeps I m') → keeps I (try_except m h).
Proof.
  intros Hm Hh s Hs. rewrite try_run. specialize (Hm s Hs).
  destruct (m s) as [[a|[| |e]] s1 o1]; simpl in *; try done.
  destruct (h e) as [m'|] eqn:He; [|done].
  specialize (Hh e m' He s1 Hm). by destruct (m' s1).
Qed.

Lemma keeps_show (x : widget) : keeps I (show x).
Proof. by intros s. Qed.

Lemma keeps_stop {A} : keeps I (@stop A).
Proof. by intros s. Qed.

Lemma keeps_rerun {A} : keeps I (@rerun A).
Proof. by intros s. Qed.

Lemma keeps_raise {A} (e : exn) : keeps I (@raise A e).
Proof. by intros s. Qed.

Lemma keeps_call {A} (r : exn + A) : keeps I (call r).
Proof. by destruct r; intros ?. Qed.

Lemma keeps_has (k : string) : keeps I (has k).
Proof. by intros s. Qed.

Lemma keeps_getattr (k : string) : keeps I (getattr k).
Proof. intros s Hs. rewrite getattr_run. by destruct (s !! k). Qed.

Lemma keeps_setattr (k : string) (v : value) :
  write_ok I k v → keeps I (setattr k v).
Proof. intros H s Hs. by apply H. Qed.

Lemma keeps_delattr (k : string) : delete_ok I k → keeps I (delattr k).
Proof. intros H s Hs. unfold delattr. destruct (s !! k); simpl; auto. Qed.

Lemma keeps_del_if_in (k : string) : delete_ok I k → keeps I (del_if_in k).
Proof. intros H s Hs. rewrite del_if_in_run. by apply H. Qed.

Lemma keeps_when (b : bool) (m : M unit) : keeps I m → keeps I (when b m).
Proof. destruct b; [done|]. intros _. apply keeps_ret. Qed.

Lemma keeps_item {V} (d : gmap string V) (k : string) : keeps I (item d k).
Proof. unfold item. destruct (d !! k); by intros s. Qed.

Lemma keeps_as_str (v : value) : keeps I (as_str v).
Proof. by destruct v; intros ?. Qed.

Lemma keeps_as_files (v : value) : keeps I (as_files v).
Proof. by destruct v; intros ?. Qed.

Lemma keeps_as_zip (v : value) : keeps I (as_zip v).
Proof. by destruct v; intros ?. Qed.

Lemma keeps_as_coll (v : value) : keeps I (as_coll v).
Proof. by destruct v; intros ?. Qed.

Lemma keeps_as_llm (v : value) : keeps I (as_llm v).
Proof. by destruct v; intros ?. Qed.

Lemma keeps_as_msgs (v : value) : keeps I (as_msgs v).
Proof. by destruct v; intros ?. Qed.

Lemma keeps_py_len (v : value) : keeps I (py_len v).
Proof. by destruct v; intros ?. Qed.

Lemma keeps_replay (ms : list message) : keeps I (App.replay ms).
Proof.
  induction ms as [|m rest IH]; [apply keeps_ret|].
  rewrite replay_cons.
  apply keeps_bind; [apply keeps_item|intros role].
  apply keeps_bind; [apply keeps_item|intros content].
  apply keeps_bind; [apply keeps_show|intros _]. exact IH.
Qed.

Lemma keeps_load_content (w : world) (file : string) :
  keeps I (App.load_content w file).
Proof.
  intros s Hs. by rewrite load_content_final.
Qed.

Lemma keeps_index_files (w : world) (total i : nat) (fs : list string)
    (c : vcollection) :
  keeps I (App.index_files w total i fs c).
Proof. intros s Hs. by rewrite index_files_final. Qed.

End keeps.

(** Applies the rule for the step at the head of the goal. *)
Ltac keeps_step :=
  lazymatch goal with
  | |- keeps _ (_ ≫= _) => apply keeps_bind; [|intros ?]
  | |- keeps _ (mret _) => apply keeps_ret
  | |- keeps _ (show _) => apply keeps_show
  | |- keeps _ stop => apply keeps_stop
  | |- keeps _ rerun => apply keeps_rerun
  | |- keeps _ (raise _) => apply keeps_raise
  | |- keeps _ (call _) => apply keeps_call
  | |- keeps _ (has _) => apply keeps_has
  | |- keeps _ (getattr _) => apply keeps_getattr
  | |- keeps _ (setattr _ _) => apply keeps_setattr
  | |- keeps _ (delattr _) => apply keeps_delattr
  | |- keeps _ (del_if_in _) => apply keeps_del_if_in
  | |- keeps _ (when _ _) => apply keeps_when
  | |- keeps _ (try_except _ _) =>
      apply keeps_try; [|intros ? ? [= <-] || (intros ? ? ?; case_match; simplify_eq)]
  | |- keeps _ (item _ _) => apply keeps_item
  | |- keeps _ (as_str _) => apply keeps_as_str
  | |- keeps _ (as_files _) => apply keeps_as_files
  | |- keeps _ (as_zip _) => apply keeps_as_zip
  | |- keeps _ (as_coll _) => apply keeps_as_coll
  | |- keeps _ (as_llm _) => apply keeps_as_llm
  | |- keeps _ (as_msgs _) => apply keeps_as_msgs
  | |- keeps _ (py_len _) => apply keeps_py_len
  | |- keeps _ (App.replay _) => apply keeps_replay
  | |- keeps _ (App.index_files _ _ _ _ _) => apply keeps_index_files
  | |- keeps _ (App.load_content _ _) => apply keeps_load_content
  | |- keeps _ (if ?b then _ else _) => destruct b
  | |- keeps _ (match ?x with _ => _ end) => destruct x
  | |- keeps _ (let '(_, _) := ?x in _) => destruct x
  end.

Section script_keeps.
Context (I : gmap string value → Prop).
Context (Hsource : ∀ k v,
           key_type k v = true → k ≠ "messages" → k ≠ "show_popup" → write_ok I k v).
Context (Hdelete : ∀ k, k ≠ "messages" → k ≠ "show_popup" → delete_ok I k).
Context (Hpopup : write_ok I "show_popup" (VBool true)).
Context (Hclear : write_ok I "messages" (VMsgs [])).
Context (Happend : ∀ m, turn_ok m → keeps I (append_message m)).

Lemma keeps_render_sidebar (w : world) (ev : events) :
  keeps I (App.render_sidebar w ev).
Proof.
  unfold App.render_sidebar.
  repeat keeps_step; try done; (apply Hsource || apply Hdelete); done.
Qed.

Lemma keeps_resolve_source (w : world) : keeps I (App.resolve_source w).
Proof.
  unfold App.resolve_source, App.extract_zip_and_scan.
  repeat keeps_step; try done; by apply Hsource.
Qed.

Lemma keeps_initialize_vector_store (w : world) (folder_path files : value) :
  keeps I (App.initialize_vector_store w folder_path files).
Proof.
  unfold App.initialize_vector_store.
  repeat keeps_step; try done; by apply Hsource.
Qed.

Lemma keeps_handle_chat_input (w : world) (ev : events) (collection llm : value) :
  keeps I (App.handle_chat_input w ev collection llm).
Proof.
  unfold App.handle_chat_input.
  keeps_step; [keeps_step|].
  destruct (chat_input ev) as [|q]; simpl; [apply keeps_ret|].
  apply keeps_when.
  keeps_step.
  { apply Happend. split; [by left | by exists q]. }
  repeat keeps_step; try done.
  apply Happend. split; [by right | by eexists].
Qed.

Lemma keeps_script (w : world) (ev : events) : keeps I (App.script w ev).
Proof.
  unfold App.script.
  repeat first
    [ apply keeps_render_sidebar
    | apply keeps_resolve_source
    | apply keeps_initialize_vector_store
    | apply keeps_handle_chat_input
    | keeps_step ];
    try done; by apply Hsource.
Qed.

(** What holds at the start of a session and is kept by every run holds
    after any number of runs. *)
Lemma keeps_session (runs : list (world * events)) (s : gmap string value) :
  I s → I (App.session runs s).1.
Proof.
  revert s. induction runs as [|[w ev] rest IH]; intros s Hs; [done|].
  simpl. specialize (IH _ (keeps_script w ev s Hs)).
  by destruct (App.session rest _).
Qed.

End script_keeps.

(** ** The history invariant *)

Lemma history_ok_write (k : string) (v : value) :
  k ≠ "messages" → write_ok history_ok k v.
Proof. intros Hk s Hs. unfold history_ok in *. by rewrite lookup_insert_ne. Qed.

Lemma history_ok_delete (k : string) : k ≠ "messages" → delete_ok history_ok k.
Proof. intros Hk s Hs. unfold history_ok in *. by rewrite lookup_delete_ne. Qed.

Lemma history_ok_clear : write_ok history_ok "messages" (VMsgs []).
Proof. intros s Hs. unfold history_ok. by rewrite lookup_insert_eq. Qed.

Lemma history_ok_append (m : message) :
  turn_ok m → keeps history_ok (append_message m).
Proof.
  intros Hm s Hs. unfold append_message. rewrite bind_run, getattr_run.
  unfold history_ok in Hs.
  destruct (s !! "messages") as [[]|] eqn:Hms; simpl; try done;
    try (by unfold history_ok; rewrite Hms).
  unfold history_ok. rewrite lookup_insert_eq.
  apply Forall_app. split; [done|]. by apply Forall_singleton.
Qed.

(** C10: a run of the script keeps the history well formed: if every turn
    of messages has role "user" or "assistant" and a string as content
    before the run, the same holds after it, however the run ends (the user
    turn and the assistant turn appended, the history cleared, the history
    created empty). *)
Theorem history_invariant (w : world) (ev : events) (s : gmap string value) :
  history_ok s → history_ok (final (App.script w ev s)).
Proof.
  apply keeps_script.
  - intros k v _ Hk _. by apply history_ok_write.
  - intros k Hk _. by apply history_ok_delete.
  - by apply history_ok_write.
  - apply history_ok_clear.
  - apply history_ok_append.
Qed.

Lemma history_invariant_witness :
  let s : gmap string value :=
    {[ "folder_path" := VStr "docs"; "files" := VFiles ["docs/a.txt"];
       "collection" := VColl (Collection "docs" [Chunk "text of docs/a.txt" "docs/a.txt"]);
       "llm" := VLlm (LlmClient "demo-model");
       "messages" := VMsgs [user_turn "hi"; assistant_turn "hello"] ]} in
  let r := App.script (Demo.laptop ["docs/a.txt"]) (Demo.ask "What color is the sky?") s in
  final r !! "messages"
    = Some (VMsgs [ user_turn "hi"; assistant_turn "hello";
                    user_turn "What color is the sky?";
                    assistant_turn "The sky is blue." ]) ∧
  history_ok (final r).
Proof.
  intros s r. split; [by vm_compute|].
  apply (history_invariant (Demo.laptop ["docs/a.txt"])
           (Demo.ask "What color is the sky?") s).
  unfold history_ok. simpl.
  repeat constructor; by eexists.
Defined.

(** The history is well formed in every state a session reaches. *)
Lemma history_ok_reachable (runs : list (world * events)) :
  history_ok (App.session runs ∅).1.
Proof.
  apply keeps_session; try done.
  - intros k v _ Hk _. by apply history_ok_write.
  - intros k Hk _. by apply history_ok_delete.
  - by apply history_ok_write.
  - apply history_ok_clear.
  - apply history_ok_append.
Qed.

(** ** The flag of the empty-folder notice is never false *)






(** ** Every entry has the type the script gives it *)

Lemma session_typed_write (k : string) (v : value) :
  key_type k v = true → write_ok session_typed k v.
Proof.
  intros Hkv s Hs k' v'. destruct (decide (k = k')) as [<-|Hne].
  - rewrite lookup_insert_eq. by intros [= <-].
  - rewrite lookup_insert_ne by done. apply Hs.
Qed.

Lemma session_typed_delete (k : string) : delete_ok session_typed k.
Proof.
  intros s Hs k' v'. destruct (decide (k = k')) as [<-|Hne].
  - by rewrite lookup_delete_eq.
  - rewrite lookup_delete_ne by done. apply Hs.
Qed.

Lemma session_typed_append (m : message) : keeps session_typed (append_message m).
Proof.
  intros s Hs. unfold append_message. rewrite bind_run, getattr_run.
  destruct (s !! "messages") as [[]|]; simpl; try done.
  by apply session_typed_write.
Qed.


(** ** The empty-folder notice, run after run *)




(** ** More on the two detectors *)

Lemma str_in_true (needle hay : string) :
  str_in needle hay = true ↔ substring needle hay.
Proof.
  split; [apply str_in_inv|]. intros (pre & post & ->). apply str_in_app.
Qed.

Lemma str_in_false (needle hay : string) :
  str_in needle hay = false ↔ ¬ substring needle hay.
Proof. rewrite <- str_in_true. by destruct (str_in needle hay). Qed.

(** X1: the detector of config.py answers true exactly when the headless
    marker is set, or the host name contains "streamlit" or "cloud", or the
    value of STREAMLIT_HOME contains "share" or "streamlit". *)
Theorem config_detector_spec (env : gmap string string) (host : string) :
  Config.is_streamlit_cloud env host = true ↔
  is_Some (env !! "STREAMLIT_SERVER_HEADLESS") ∨
  substring "streamlit" host ∨
  substring "cloud" host ∨
  ∃ home, env !! "STREAMLIT_HOME" = Some home ∧
          (substring "share" home ∨ substring "streamlit" home).
Proof.
  unfold Config.is_streamlit_cloud. case_bool_decide as Hh.
  { split; [auto|done]. }
  destruct (str_in "streamlit" host) eqn:H1; simpl.
  { apply str_in_true in H1. split; [auto|done]. }
  destruct (str_in "cloud" host) eqn:H2; simpl.
  { apply str_in_true in H2. split; [auto|done]. }
  apply str_in_false in H1, H2.
  destruct (env !! "STREAMLIT_HOME") as [home|] eqn:Hhome; simpl.
  - destruct (str_in "share" home) eqn:H3; simpl.
    { apply str_in_true in H3. split; [eauto 10|done]. }
    destruct (str_in "streamlit" home) eqn:H4; simpl.
    { apply str_in_true in H4. split; [eauto 10|done]. }
    apply str_in_false in H3, H4. split; [done|].
    intros [?|[?|[?|(home' & [= <-] & [?|?])]]]; done.
  - split; [done|].
    intros [?|[?|[?|(home' & ? & _)]]]; done.
Qed.

(** X2: the two detectors agree when the headless marker is set (both
    answer true), and when neither the runtime nor the sharing-mode marker
    is set and neither the host name nor STREAMLIT_HOME has one of the
    substrings config.py looks for. *)
Theorem detectors_agree (env : gmap string string) (host : string) :
  is_Some (env !! "STREAMLIT_SERVER_HEADLESS") ∨
  (env !! "STREAMLIT_RUNTIME" = None ∧
   env !! "STREAMLIT_SHARING_MODE" = None ∧
   ¬ substring "streamlit" host ∧
   ¬ substring "cloud" host ∧
   ∀ home, env !! "STREAMLIT_HOME" = Some home →
           ¬ substring "share" home ∧ ¬ substring "streamlit" home) →
  App.is_streamlit_cloud env = Config.is_streamlit_cloud env host.
Proof.
  intros [Hh | (Hr & Hs & H1 & H2 & Hhome)].
  - unfold App.is_streamlit_cloud, Config.is_streamlit_cloud.
    rewrite (bool_decide_true _ Hh). by rewrite !orb_true_r.
  - destruct (Config.is_streamlit_cloud env host) eqn:HB.
    + apply config_detector_spec in HB
        as [Hh|[?|[?|(home & Hhome' & Hsub)]]]; try done.
      * unfold App.is_streamlit_cloud. rewrite (bool_decide_true _ Hh).
        by rewrite !orb_true_r.
      * destruct (Hhome home Hhome') as [??]. by destruct Hsub.
    + unfold App.is_streamlit_cloud. rewrite Hr, Hs. simpl.
      apply bool_decide_eq_false. intros Hh.
      assert (Config.is_streamlit_cloud env host = true) as HB'
        by (apply config_detector_spec; auto).
      congruence.
Qed.

Lemma detectors_agree_witness :
  App.is_streamlit_cloud ∅ = Config.is_streamlit_cloud ∅ "laptop" ∧
  App.is_streamlit_cloud {[ "STREAMLIT_SERVER_HEADLESS" := "1" ]}
  = Config.is_streamlit_cloud {[ "STREAMLIT_SERVER_HEADLESS" := "1" ]} "laptop".
Proof.
  split.
  - apply (detectors_agree ∅ "laptop"). right.
    split; [reflexivity|]. split; [reflexivity|].
    split; [apply str_in_false; reflexivity|].
    split; [apply str_in_false; reflexivity|].
    intros home. by rewrite lookup_empty.
  - apply (detectors_agree {[ "STREAMLIT_SERVER_HEADLESS" := "1" ]} "laptop").
    left. by eexists.
Defined.

(** X3: the detectors also disagree the other way round: with the runtime
    or the sharing-mode marker set, the headless marker not set and none of
    config.py's substrings in the host name or in STREAMLIT_HOME, the
    detector of app.py answers true and the detector of config.py false. *)
Theorem app_detector_alone (env : gmap string string) (host : string) :
  is_Some (env !! "STREAMLIT_RUNTIME") ∨ is_Some (env !! "STREAMLIT_SHARING_MODE") →
  env !! "STREAMLIT_SERVER_HEADLESS" = None →
  ¬ substring "streamlit" host →
  ¬ substring "cloud" host →
  (∀ home, env !! "STREAMLIT_HOME" = Some home →
           ¬ substring "share" home ∧ ¬ substring "streamlit" home) →
  App.is_streamlit_cloud env = true ∧ Config.is_streamlit_cloud env host = false.
Proof.
  intros Hmark Hh H1 H2 Hhome. split.
  - unfold App.is_streamlit_cloud.
    destruct Hmark as [Hm | Hm]; rewrite (bool_decide_true _ Hm); simpl; [done|].
    by rewrite orb_true_r.
  - destruct (Config.is_streamlit_cloud env host) eqn:HB; [|done].
    apply config_detector_spec in HB as [[? Hh']|[?|[?|(home & Hhome' & Hsub)]]];
      try done; [congruence|].
    destruct (Hhome home Hhome') as [??]. by destruct Hsub.
Qed.

Lemma app_detector_alone_witness :
  App.is_streamlit_cloud {[ "STREAMLIT_RUNTIME" := "1" ]} = true ∧
  Config.is_streamlit_cloud {[ "STREAMLIT_RUNTIME" := "1" ]} "laptop" = false.
Proof.
  apply (app_detector_alone {[ "STREAMLIT_RUNTIME" := "1" ]} "laptop").
  - left. by eexists.
  - reflexivity.
  - apply str_in_false. reflexivity.
  - apply str_in_false. reflexivity.
  - intros home. rewrite lookup_singleton_ne by done. done.
Defined.

(** ** More on the sidebar *)

(** Case analysis on an entry of a typed session state: absent, or a value
    of the kind its key holds. *)
Ltac typed_entry Htyped s k :=
  let v := fresh "v" in
  let Hv := fresh "Hv" in
  let Hk := fresh "Hk" in
  destruct (s !! k) as [v|] eqn:Hv;
  [ pose proof (Htyped k v Hv) as Hk; destruct v; try done; clear Hk | ].

(** Typing of an explicit session state is checked by evaluation. *)
Lemma session_typed_check (s : gmap string value) :
  bool_decide (map_Forall (λ k v, key_type k v = true) s) = true →
  session_typed s.
Proof. intros H. apply bool_decide_eq_true in H. exact H. Qed.

(** X4: a run of the sidebar in which no button is pressed only renders:
    it returns normally and leaves the session state as it was. *)
Theorem sidebar_without_click (w : world) (ev : events) (s : gmap string value) :
  session_typed s →
  load_zip_clicked ev = false →
  load_folder_clicked ev = false →
  clear_chat_clicked ev = false →
  outcome (App.render_sidebar w ev s) = Ret tt ∧
  final (App.render_sidebar w ev s) = s.
Proof.
  intros Htyped Hzip Hfolder Hclear. unfold App.render_sidebar.
  rewrite Hzip, Hfolder, Hclear.
  destruct (App.is_streamlit_cloud (environ w)), (file_uploader ev).
  all: typed_entry Htyped s "uploaded_zip"; typed_entry Htyped s "folder_path";
    typed_entry Htyped s "files"; by run_steps.
Qed.

Lemma sidebar_without_click_witness :
  let s : gmap string value :=
    {[ "folder_path" := VStr "docs"; "files" := VFiles ["docs/a.txt"] ]} in
  final (App.render_sidebar (Demo.laptop ["docs/a.txt"]) Demo.refresh s) = s.
Proof.
  intros s.
  apply (sidebar_without_click (Demo.laptop ["docs/a.txt"]) Demo.refresh s);
    try reflexivity.
  apply session_typed_check. reflexivity.
Defined.

(** X5: Clear Chat History, pressed alone, ends the run at [st.rerun()]
    with messages set to the empty list and every other entry of the
    session state (source, files, collection, llm) as it was. *)
Theorem clear_chat_resets_history_only (w : world) (ev : events)
    (s : gmap string value) :
  session_typed s →
  load_zip_clicked ev = false →
  load_folder_clicked ev = false →
  clear_chat_clicked ev = true →
  outcome (App.script w ev s) = Sig Rerun ∧
  final (App.script w ev s) = <["messages" := VMsgs []]> s.
Proof.
  intros Htyped Hzip Hfolder Hclear. unfold App.script, App.render_sidebar.
  rewrite Hzip, Hfolder, Hclear.
  destruct (App.is_streamlit_cloud (environ w)), (file_uploader ev).
  all: typed_entry Htyped s "uploaded_zip"; typed_entry Htyped s "folder_path";
    typed_entry Htyped s "files"; by run_steps.
Qed.

Lemma clear_chat_resets_history_only_witness :
  let s : gmap string value :=
    {[ "folder_path" := VStr "docs"; "files" := VFiles ["docs/a.txt"];
       "collection" := VColl (Collection "docs" []);
       "messages" := VMsgs [user_turn "hi"; assistant_turn "hello"] ]} in
  let r := App.script (Demo.laptop ["docs/a.txt"]) Demo.clear_chat s in
  outcome r = Sig Rerun ∧
  final r !! "messages" = Some (VMsgs []) ∧
  final r !! "collection" = s !! "collection".
Proof.
  intros s r.
  destruct (clear_chat_resets_history_only (Demo.laptop ["docs/a.txt"])
              Demo.clear_chat s) as [H1 H2]; try reflexivity.
  { apply session_typed_check. reflexivity. }
  split; [done|]. fold r in H2. rewrite H2. done.
Defined.

(** X6: Load Folder pressed on an empty text input shows the prompt
    "Please enter a folder path", no error, and changes nothing in the
    session state. *)
Theorem empty_path_prompts (w : world) (ev : events) (s : gmap string value) :
  session_typed s →
  App.is_streamlit_cloud (environ w) = false →
  load_folder_clicked ev = true →
  text_input ev = "" →
  clear_chat_clicked ev = false →
  let r := App.render_sidebar w ev s in
  outcome r = Ret tt ∧
  final r = s ∧
  Info "Please enter a folder path" ∈ shown r ∧
  Error "Folder not found. Please check the path." ∉ shown r.
Proof.
  intros Htyped Hmode Hfolder Htext Hclear. unfold App.render_sidebar.
  rewrite Hmode, Hfolder, Htext, Hclear.
  typed_entry Htyped s "folder_path"; typed_entry Htyped s "files"; run_steps.
  all: repeat split; try done; list_mem; auto 10.
  all: intros Hin; repeat match goal with H : _ ∨ _ |- _ => destruct H as [H | H] end;
    done.
Qed.

Lemma empty_path_prompts_witness :
  let r := App.render_sidebar (Demo.laptop []) (Demo.load_folder "") ∅ in
  final r = ∅ ∧ Info "Please enter a folder path" ∈ shown r.
Proof.
  intros r.
  destruct (empty_path_prompts (Demo.laptop []) (Demo.load_folder "") ∅)
    as (_ & H1 & H2 & _); try reflexivity; done.
Defined.

(** X7: whatever the user does, the sidebar writes and deletes only the
    entries uploaded_zip, folder_path, collection, files and messages: every
    other entry of the session state (llm, temp_dir, show_popup) is left as
    it was. *)
Theorem sidebar_frame (w : world) (ev : events) (s : gmap string value) (k : string) :
  k ∉ ["uploaded_zip"; "folder_path"; "collection"; "files"; "messages"] →
  final (App.render_sidebar w ev s) !! k = s !! k.
Proof.
  intros Hk.
  assert (∀ k' v, k' ∈ ["uploaded_zip"; "folder_path"; "collection"; "files"; "messages"] →
            write_ok (λ s', s' !! k = s !! k) k' v) as Hwrite.
  { intros k' v Hk' s' Hs'. rewrite lookup_insert_ne; [done|]. by intros ->. }
  assert (∀ k', k' ∈ ["uploaded_zip"; "folder_path"; "collection"; "files"; "messages"] →
            delete_ok (λ s', s' !! k = s !! k) k') as Hdelete.
  { intros k' Hk' s' Hs'. rewrite lookup_delete_ne; [done|]. by intros ->. }
  cut (keeps (λ s', s' !! k = s !! k) (App.render_sidebar w ev)).
  { intros H. by apply H. }
  unfold App.render_sidebar.
  repeat keeps_step; try done; (apply Hwrite || apply Hdelete); list_mem; auto 10.
Qed.

Lemma sidebar_frame_witness :
  let s : gmap string value :=
    {[ "llm" := VLlm (LlmClient "demo-model"); "show_popup" := VBool true ]} in
  final (App.render_sidebar (Demo.laptop []) (Demo.load_folder "docs") s) !! "llm"
  = Some (VLlm (LlmClient "demo-model")).
Proof.
  intros s.
  rewrite (sidebar_frame (Demo.laptop []) (Demo.load_folder "docs") s "llm").
  - reflexivity.
  - list_mem. intros H.
    repeat match goal with H : _ ∨ _ |- _ => destruct H as [H | H] end; done.
Defined.

(** ** The script, part by part *)

Lemma script_parts (w : world) (ev : events) :
  App.script w ev =
  (show (Title "Chat with your documents!");;
   show (Write (strftime w));;
   App.render_sidebar w ev;;
   App.resolve_source w;;
   App.after_source w ev).
Proof. reflexivity. Qed.

(** A run is the sidebar, then the source resolution, then indexing and
    chat, each part starting in the state the previous one left. *)
Lemma script_run (w : world) (ev : events) (s : gmap string value) :
  App.script w ev s =
  match App.render_sidebar w ev s with
  | Run (Ret _) s1 o1 =>
      match App.resolve_source w s1 with
      | Run (Ret _) s2 o2 =>
          match App.after_source w ev s2 with
          | Run r s3 o3 =>
              Run r s3 (Title "Chat with your documents!" :: Write (strftime w)
                          :: o1 ++ o2 ++ o3)
          end
      | Run (Sig g) s2 o2 =>
          Run (Sig g) s2 (Title "Chat with your documents!" :: Write (strftime w)
                            :: o1 ++ o2)
      end
  | Run (Sig g) s1 o1 =>
      Run (Sig g) s1 (Title "Chat with your documents!" :: Write (strftime w) :: o1)
  end.
Proof.
  rewrite script_parts. rewrite bind_run. simpl. rewrite bind_run. simpl.
  rewrite bind_run.
  destruct (App.render_sidebar w ev s) as [[[]|g] s1 o1]; simpl; [|done].
  rewrite bind_run.
  destruct (App.resolve_source w s1) as [[[]|g] s2 o2]; simpl; [|done].
  by destruct (App.after_source w ev s2).
Qed.

(** A run of the sidebar in which no button is pressed returns normally and
    leaves the session state as it was. *)
Lemma sidebar_idle (w : world) (ev : events) (s : gmap string value) :
  session_typed s →
  load_zip_clicked ev = false →
  load_folder_clicked ev = false →
  clear_chat_clicked ev = false →
  ∃ o, App.render_sidebar w ev s = Run (Ret tt) s o.
Proof.
  intros Htyped Hzip Hfolder Hclear. unfold App.render_sidebar.
  rewrite Hzip, Hfolder, Hclear.
  destruct (App.is_streamlit_cloud (environ w)), (file_uploader ev).
  all: typed_entry Htyped s "uploaded_zip"; typed_entry Htyped s "folder_path";
    typed_entry Htyped s "files"; run_steps; by eexists.
Qed.

(** ** Source resolution *)

Lemma resolve_no_source (w : world) (s : gmap string value) :
  s !! "folder_path" = None →
  s !! "uploaded_zip" = None →
  App.resolve_source w s = Run (Sig Stop) s [].
Proof. intros H1 H2. unfold App.resolve_source. by run_steps. Qed.

Lemma resolve_folder (w : world) (s : gmap string value) (p f : string)
    (fs : list string) :
  s !! "folder_path" = Some (VStr p) →
  scan_folders w p = inr (f :: fs) →
  App.resolve_source w s = Run (Ret tt) (<["files" := VFiles (f :: fs)]> s) [].
Proof.
  intros Hp Hscan. unfold App.resolve_source. run_steps. rewrite Hscan. by run_steps.
Qed.

Lemma resolve_zip (w : world) (s : gmap string value) (z : uploaded_file) :
  s !! "folder_path" = None →
  s !! "uploaded_zip" = Some (VZip z) →
  App.resolve_source w s =
  match extractall w z (mkdtemp w) with
  | Some e => Run (Sig (Raise e)) s []
  | None =>
      match scan_folders w (mkdtemp w) with
      | inl e => Run (Sig (Raise e)) s []
      | inr [] => Run (Sig Stop) s [Info "No documents found in ZIP"]
      | inr (f :: fs) =>
          Run (Ret tt)
            (<["temp_dir" := VStr (mkdtemp w)]> (<["files" := VFiles (f :: fs)]> s)) []
      end
  end.
Proof.
  intros Hp Hz. unfold App.resolve_source, App.extract_zip_and_scan. run_steps.
  destruct (extractall w z (mkdtemp w)); run_steps; [done|].
  destruct (scan_folders w (mkdtemp w)) as [e|[|f fs]]; by run_steps.
Qed.

(** X8: when the sidebar has returned and neither a folder path nor an
    upload is recorded, the run halts at [st.stop()] right after the
    sidebar: nothing more is rendered and nothing is written. *)
Theorem no_source_halts_silently (w : world) (ev : events) (s : gmap string value) :
  outcome (App.render_sidebar w ev s) = Ret tt →
  final (App.render_sidebar w ev s) !! "folder_path" = None →
  final (App.render_sidebar w ev s) !! "uploaded_zip" = None →
  App.script w ev s =
  Run (Sig Stop) (final (App.render_sidebar w ev s))
    (Title "Chat with your documents!" :: Write (strftime w)
       :: shown (App.render_sidebar w ev s)).
Proof.
  rewrite script_run.
  destruct (App.render_sidebar w ev s) as [[[]|g] s1 o1]; simpl; [|done].
  intros _ H1 H2. rewrite (resolve_no_source w s1 H1 H2). by rewrite app_nil_r.
Qed.

Lemma no_source_halts_silently_witness :
  App.script (Demo.laptop ["docs/a.txt"]) Demo.refresh ∅ =
  Run (Sig Stop) ∅
    [ Title "Chat with your documents!"; Write "05 Jan, 2025";
      Title "📁 Document Settings"; TextInput "Enter folder path:";
      Button "Load Folder"; Markdown "---"; Button "🗑️ Clear Chat History" ].
Proof.
  etrans.
  - apply (no_source_halts_silently (Demo.laptop ["docs/a.txt"]) Demo.refresh ∅);
      reflexivity.
  - reflexivity.
Defined.

(** X9: in archive mode the empty-source notice has no flag: a run in
    which no button is pressed and the recorded archive extracts to no
    supported file shows "No documents found in ZIP", halts, and leaves the
    session state exactly as it was (files and temp_dir are not written), so
    the next run meets the same condition again. *)
Theorem empty_archive_notice (w : world) (ev : events) (s : gmap string value)
    (z : uploaded_file) :
  session_typed s →
  load_zip_clicked ev = false →
  load_folder_clicked ev = false →
  clear_chat_clicked ev = false →
  s !! "folder_path" = None →
  s !! "uploaded_zip" = Some (VZip z) →
  extractall w z (mkdtemp w) = None →
  scan_folders w (mkdtemp w) = inr [] →
  let r := App.script w ev s in
  outcome r = Sig Stop ∧
  final r = s ∧
  last (shown r) = Some (Info "No documents found in ZIP").
Proof.
  intros Htyped Hzip Hfolder Hclear Hp Hz Hex Hscan.
  destruct (sidebar_idle w ev s Htyped Hzip Hfolder Hclear) as [o Hside].
  simpl. rewrite script_run, Hside, (resolve_zip w s z Hp Hz), Hex, Hscan. simpl.
  repeat split.
  change (last ((Title "Chat with your documents!" :: Write (strftime w) :: o)
                  ++ [Info "No documents found in ZIP"])
          = Some (Info "No documents found in ZIP")).
  apply last_snoc.
Qed.

Lemma empty_archive_notice_witness :
  let s : gmap string value := {[ "uploaded_zip" := VZip (UploadedFile "docs.zip" "PK") ]} in
  let r := App.script (Demo.hosted []) Demo.refresh s in
  outcome r = Sig Stop ∧ final r = s ∧
  last (shown r) = Some (Info "No documents found in ZIP").
Proof.
  intros s r.
  apply (empty_archive_notice (Demo.hosted []) Demo.refresh s
           (UploadedFile "docs.zip" "PK")); try reflexivity.
  apply session_typed_check. reflexivity.
Defined.

(** X10: the extraction of the archive is guarded by no [try]: when it
    raises, the exception leaves the script uncaught, no notice is shown
    and the session state is as it was, so every later run on the same
    upload fails the same way. *)
Theorem archive_extraction_failure_escapes (w : world) (ev : events)
    (s : gmap string value) (z : uploaded_file) (e : exn) :
  session_typed s →
  load_zip_clicked ev = false →
  load_folder_clicked ev = false →
  clear_chat_clicked ev = false →
  s !! "folder_path" = None →
  s !! "uploaded_zip" = Some (VZip z) →
  extractall w z (mkdtemp w) = Some e →
  let r := App.script w ev s in
  outcome r = Sig (Raise e) ∧
  final r = s ∧
  shown r = Title "Chat with your documents!" :: Write (strftime w)
              :: shown (App.render_sidebar w ev s).
Proof.
  intros Htyped Hzip Hfolder Hclear Hp Hz Hex.
  destruct (sidebar_idle w ev s Htyped Hzip Hfolder Hclear) as [o Hside].
  simpl. rewrite script_run, Hside, (resolve_zip w s z Hp Hz), Hex. simpl.
  by rewrite app_nil_r.
Qed.

Lemma archive_extraction_failure_escapes_witness :
  let w := World {[ "STREAMLIT_SERVER_HEADLESS" := "true" ]} "localhost" "05 Jan, 2025"
             ∅ [] (λ _, false) (λ _, inr []) "/tmp/tmpab12"
             (λ _ _, Some (OtherError "File is not a zip file"))
             Demo.posix_ext (λ _ _, inr "") (λ _ _, inr [])
             (λ p, inr (Collection p [])) (λ _ _, None) (λ _, inr [])
             (λ _ _, inr []) (λ _, inr []) (λ _ _ _ _, inr "") (inr (LlmClient "m")) in
  let s : gmap string value := {[ "uploaded_zip" := VZip (UploadedFile "notes.zip" "xx") ]} in
  outcome (App.script w Demo.refresh s) = Sig (Raise (OtherError "File is not a zip file")) ∧
  final (App.script w Demo.refresh s) = s.
Proof.
  intros w s.
  destruct (archive_extraction_failure_escapes w Demo.refresh s
              (UploadedFile "notes.zip" "xx") (OtherError "File is not a zip file"))
    as (H1 & H2 & _); try reflexivity.
  { apply session_typed_check. reflexivity. }
  by split.
Defined.

(** ** What indexing and chat leave alone *)

Lemma keeps_append_message (I : gmap string value → Prop) (m : message) :
  (∀ v, write_ok I "messages" v) → keeps I (append_message m).
Proof.
  intros Hw s Hs. unfold append_message. rewrite bind_run, getattr_run.
  destruct (s !! "messages") as [[]|]; simpl; try done. by apply Hw.
Qed.

(** A property that survives every write to collection, llm and messages
    survives indexing and chat. *)
Lemma keeps_after_source (I : gmap string value → Prop) (w : world) (ev : events) :
  (∀ v, write_ok I "collection" v) →
  (∀ v, write_ok I "llm" v) →
  (∀ v, write_ok I "messages" v) →
  keeps I (App.after_source w ev).
Proof.
  intros Hc Hl Hm.
  unfold App.after_source, App.initialize_vector_store, App.handle_chat_input.
  repeat first [ apply keeps_append_message; assumption | keeps_step ]; done.
Qed.

(** A property that survives every write to files, temp_dir and show_popup
    survives the source resolution. *)
Lemma keeps_resolve (I : gmap string value → Prop) (w : world) :
  (∀ v, write_ok I "files" v) →
  (∀ v, write_ok I "temp_dir" v) →
  (∀ v, write_ok I "show_popup" v) →
  keeps I (App.resolve_source w).
Proof.
  intros Hf Ht Hp. unfold App.resolve_source, App.extract_zip_and_scan.
  repeat keeps_step; done.
Qed.

Lemma write_other_key (x : option value) (k k' : string) (v : value) :
  k' ≠ k → write_ok (λ s', s' !! k = x) k' v.
Proof. intros Hne s' Hs'. by rewrite lookup_insert_ne. Qed.

Lemma delete_other_key (x : option value) (k k' : string) :
  k' ≠ k → delete_ok (λ s', s' !! k = x) k'.
Proof. intros Hne s' Hs'. by rewrite lookup_delete_ne. Qed.

(** The same, with what indexing and the creation of the LLM client keep given
    apart. *)
Lemma keeps_after_source_with (I : gmap string value → Prop) (w : world) (ev : events) :
  (∀ cp files, keeps I (App.initialize_vector_store w cp files)) →
  (∀ rest : M unit,
     keeps I rest →
     keeps I (b ← has "llm";
              when (negb b) (h ← call (set_llm w); setattr "llm" (VLlm h));;
              rest)) →
  (∀ v, write_ok I "messages" v) →
  keeps I (App.after_source w ev).
Proof.
  intros Hinit Hllm Hm. unfold App.after_source.
  apply keeps_bind; [repeat keeps_step|intros cp].
  apply keeps_bind; [keeps_step|intros files].
  apply keeps_bind; [apply Hinit|intros _].
  apply Hllm.
  unfold App.handle_chat_input.
  repeat first [ apply keeps_append_message; assumption | keeps_step ]; done.
Qed.

(** X11: the folder is scanned again in every run: after a run in which no
    button is pressed, files holds what this run's scan of the recorded
    folder returned, whatever it held before and however the run ends
    afterwards (indexing, chat, an exception).  A recorded folder takes
    precedence over a recorded upload. *)
Theorem files_follow_latest_scan (w : world) (ev : events) (s : gmap string value)
    (p f : string) (fs : list string) :
  session_typed s →
  load_zip_clicked ev = false →
  load_folder_clicked ev = false →
  clear_chat_clicked ev = false →
  s !! "folder_path" = Some (VStr p) →
  scan_folders w p = inr (f :: fs) →
  final (App.script w ev s) !! "files" = Some (VFiles (f :: fs)) ∧
  final (App.script w ev s) !! "temp_dir" = s !! "temp_dir".
Proof.
  intros Htyped Hzip Hfolder Hclear Hp Hscan.
  destruct (sidebar_idle w ev s Htyped Hzip Hfolder Hclear) as [o Hside].
  rewrite script_run, Hside, (resolve_folder w s p f fs Hp Hscan).
  pose proof (keeps_after_source
                (λ s', s' !! "files" = Some (VFiles (f :: fs)) ∧
                       s' !! "temp_dir" = s !! "temp_dir") w ev) as Hkeep.
  unfold keeps in Hkeep.
  destruct (App.after_source w ev (<["files" := VFiles (f :: fs)]> s))
    as [r3 s3 o3] eqn:Hafter.
  specialize (Hkeep ltac:(intros v s' [??]; by rewrite !lookup_insert_ne)
                    ltac:(intros v s' [??]; by rewrite !lookup_insert_ne)
                    ltac:(intros v s' [??]; by rewrite !lookup_insert_ne)
                    (<["files" := VFiles (f :: fs)]> s)).
  rewrite Hafter in Hkeep. simpl in *. apply Hkeep.
  by rewrite lookup_insert_eq, lookup_insert_ne.
Qed.

Lemma files_follow_latest_scan_witness :
  let s : gmap string value :=
    {[ "folder_path" := VStr "docs"; "files" := VFiles ["docs/old.txt"];
       "collection" := VColl (Collection "docs" []) ]} in
  final (App.script (Demo.laptop ["docs/a.txt"; "docs/b.pdf"]) Demo.refresh s) !! "files"
  = Some (VFiles ["docs/a.txt"; "docs/b.pdf"]).
Proof.
  intros s.
  apply (files_follow_latest_scan (Demo.laptop ["docs/a.txt"; "docs/b.pdf"])
           Demo.refresh s "docs"); try reflexivity.
  apply session_typed_check. reflexivity.
Defined.

(** X12: the archive is extracted again in every run, also when the
    collection is already stored: after a run in which no button is pressed,
    temp_dir is the directory this run created and files is what the scan of
    it returned; the previous directory is referenced nowhere any more. *)
Theorem archive_extracted_every_run (w : world) (ev : events) (s : gmap string value)
    (z : uploaded_file) (f : string) (fs : list string) :
  session_typed s →
  load_zip_clicked ev = false →
  load_folder_clicked ev = false →
  clear_chat_clicked ev = false →
  s !! "folder_path" = None →
  s !! "uploaded_zip" = Some (VZip z) →
  extractall w z (mkdtemp w) = None →
  scan_folders w (mkdtemp w) = inr (f :: fs) →
  final (App.script w ev s) !! "temp_dir" = Some (VStr (mkdtemp w)) ∧
  final (App.script w ev s) !! "files" = Some (VFiles (f :: fs)).
Proof.
  intros Htyped Hzip Hfolder Hclear Hp Hz Hex Hscan.
  destruct (sidebar_idle w ev s Htyped Hzip Hfolder Hclear) as [o Hside].
  rewrite script_run, Hside, (resolve_zip w s z Hp Hz), Hex, Hscan.
  pose proof (keeps_after_source
                (λ s', s' !! "temp_dir" = Some (VStr (mkdtemp w)) ∧
                       s' !! "files" = Some (VFiles (f :: fs))) w ev) as Hkeep.
  unfold keeps in Hkeep.
  destruct (App.after_source w ev _) as [r3 s3 o3] eqn:Hafter.
  specialize (Hkeep ltac:(intros v s' [??]; by rewrite !lookup_insert_ne)
                    ltac:(intros v s' [??]; by rewrite !lookup_insert_ne)
                    ltac:(intros v s' [??]; by rewrite !lookup_insert_ne)
                    (<["temp_dir" := VStr (mkdtemp w)]>
                       (<["files" := VFiles (f :: fs)]> s))).
  rewrite Hafter in Hkeep. simpl in *. apply Hkeep.
  by rewrite lookup_insert_eq, lookup_insert_ne, lookup_insert_eq.
Qed.

Lemma archive_extracted_every_run_witness :
  let s : gmap string value :=
    {[ "uploaded_zip" := VZip (UploadedFile "docs.zip" "PK");
       "temp_dir" := VStr "/tmp/earlier"; "files" := VFiles ["/tmp/earlier/a.txt"];
       "collection" := VColl (Collection "docs.zip" []) ]} in
  final (App.script (Demo.hosted ["/tmp/tmpab12/a.txt"]) Demo.refresh s) !! "temp_dir"
  = Some (VStr "/tmp/tmpab12").
Proof.
  intros s.
  apply (archive_extracted_every_run (Demo.hosted ["/tmp/tmpab12/a.txt"])
           Demo.refresh s (UploadedFile "docs.zip" "PK") "/tmp/tmpab12/a.txt" []);
    try reflexivity.
  apply session_typed_check. reflexivity.
Defined.

(** A property kept by the sidebar, by the source resolution and by
    indexing and chat is kept by the run. *)
Lemma keeps_script_parts (I : gmap string value → Prop) (w : world) (ev : events) :
  keeps I (App.render_sidebar w ev) →
  keeps I (App.resolve_source w) →
  keeps I (App.after_source w ev) →
  keeps I (App.script w ev).
Proof.
  intros H1 H2 H3. rewrite script_parts.
  apply keeps_bind; [apply keeps_show|intros _].
  apply keeps_bind; [apply keeps_show|intros _].
  apply keeps_bind; [assumption|intros _].
  apply keeps_bind; [assumption|intros _]. assumption.
Qed.

(** The sidebar with neither Load ZIP nor Load Folder pressed writes
    messages at most. *)
Lemma keeps_sidebar_no_commit (I : gmap string value → Prop) (w : world) (ev : events) :
  load_zip_clicked ev = false →
  load_folder_clicked ev = false →
  write_ok I "messages" (VMsgs []) →
  keeps I (App.render_sidebar w ev).
Proof.
  intros Hzip Hfolder Hm. unfold App.render_sidebar. rewrite Hzip, Hfolder. simpl.
  repeat keeps_step; done.
Qed.

(** X13: the recorded source changes on a button press only: after a run
    in which neither Load ZIP nor Load Folder is pressed, folder_path and
    uploaded_zip are what they were, however the run ends. *)
Theorem source_changes_on_click_only (w : world) (ev : events) (s : gmap string value) :
  load_zip_clicked ev = false →
  load_folder_clicked ev = false →
  final (App.script w ev s) !! "folder_path" = s !! "folder_path" ∧
  final (App.script w ev s) !! "uploaded_zip" = s !! "uploaded_zip".
Proof.
  intros Hzip Hfolder.
  assert (∀ k, k = "folder_path" ∨ k = "uploaded_zip" →
               keeps (λ s', s' !! k = s !! k) (App.script w ev)) as Hkeep.
  { intros k Hk. apply keeps_script_parts.
    - apply keeps_sidebar_no_commit; try done.
      apply write_other_key. by destruct Hk as [-> | ->].
    - apply keeps_resolve; intros v; apply write_other_key;
        by destruct Hk as [-> | ->].
    - apply keeps_after_source; intros v; apply write_other_key;
        by destruct Hk as [-> | ->]. }
  split; apply (Hkeep _); auto.
Qed.

Lemma source_changes_on_click_only_witness :
  let s : gmap string value :=
    {[ "folder_path" := VStr "docs"; "files" := VFiles ["docs/a.txt"] ]} in
  final (App.script (Demo.laptop []) (Demo.ask "anything there?") s) !! "folder_path"
  = Some (VStr "docs").
Proof.
  intros s.
  destruct (source_changes_on_click_only (Demo.laptop [])
              (Demo.ask "anything there?") s) as [H _]; reflexivity || exact H.
Defined.

(** X14: a stored collection is reused until the user commits a new
    source: a run in which neither Load ZIP nor Load Folder is pressed
    neither deletes nor replaces it, whatever the scan returns in that run
    and however the run ends. *)
Theorem collection_kept_until_commit (w : world) (ev : events)
    (s : gmap string value) (v : value) :
  s !! "collection" = Some v →
  load_zip_clicked ev = false →
  load_folder_clicked ev = false →
  final (App.script w ev s) !! "collection" = Some v.
Proof.
  intros Hc Hzip Hfolder.
  apply (keeps_script_parts (λ s', s' !! "collection" = Some v)); [| | |done].
  - apply keeps_sidebar_no_commit; try done. by apply write_other_key.
  - apply keeps_resolve; intros v'; by apply write_other_key.
  - apply keeps_after_source_with.
    + intros cp files s' Hs'. by rewrite (initialize_with_collection _ _ _ v).
    + intros rest Hrest. repeat keeps_step; try done. by apply write_other_key.
    + intros v'. by apply write_other_key.
Qed.

Lemma collection_kept_until_commit_witness :
  let c := VColl (Collection "docs" [Chunk "text of docs/a.txt" "docs/a.txt"]) in
  let s : gmap string value :=
    {[ "folder_path" := VStr "docs"; "files" := VFiles ["docs/a.txt"];
       "collection" := c ]} in
  final (App.script (Demo.laptop ["docs/a.txt"; "docs/new.txt"]) Demo.refresh s)
    !! "collection" = Some c.
Proof.
  intros c s.
  apply (collection_kept_until_commit (Demo.laptop ["docs/a.txt"; "docs/new.txt"])
           Demo.refresh s c); reflexivity.
Defined.

(** X15: the LLM client is created once: when llm is in the session state,
    no run replaces or deletes it, whatever the user does and however the
    run ends; [set_llm] is called only when the entry is absent. *)
Theorem llm_created_once (w : world) (ev : events) (s : gmap string value) (v : value) :
  s !! "llm" = Some v →
  final (App.script w ev s) !! "llm" = Some v.
Proof.
  intros Hl.
  apply (keeps_script_parts (λ s', s' !! "llm" = Some v)); [| | |done].
  - unfold App.render_sidebar.
    repeat keeps_step; try done;
      (apply write_other_key || apply delete_other_key); done.
  - apply keeps_resolve; intros v'; by apply write_other_key.
  - apply keeps_after_source_with.
    + intros cp files. unfold App.initialize_vector_store.
      repeat keeps_step; try done. by apply write_other_key.
    + intros rest Hrest s' Hs'. rewrite bind_run, has_run, Hs'. simpl.
      rewrite bind_run. simpl. specialize (Hrest s' Hs').
      by destruct (rest s').
    + intros v'. by apply write_other_key.
Qed.

Lemma llm_created_once_witness :
  let s : gmap string value :=
    {[ "llm" := VLlm (LlmClient "first") ; "folder_path" := VStr "old" ]} in
  final (App.script (Demo.laptop ["docs/a.txt"]) (Demo.load_folder "docs") s) !! "llm"
  = Some (VLlm (LlmClient "first")).
Proof.
  intros s.
  apply (llm_created_once (Demo.laptop ["docs/a.txt"]) (Demo.load_folder "docs") s).
  reflexivity.
Defined.

(** ** More on indexing *)

Lemma load_content_unavailable (w : world) (file : string) (s : gmap string value) :
  content_unavailable w file →
  App.load_content w file s = Run (Ret "") s [unsupported_notice file].
Proof.
  unfold App.load_content, item.
  intros [Hfn | (fn & key & Hfn & Hrun)]; rewrite Hfn; run_steps; [done|].
  rewrite Hrun. by run_steps.
Qed.

Lemma load_content_loaded (w : world) (file content : string) (fn : loader)
    (s : gmap string value) :
  App.loaders !! splitext w file = Some fn →
  run_loader w fn file = inr content →
  App.load_content w file s = Run (Ret content) s [].
Proof.
  intros Hfn Hrun. unfold App.load_content, item. rewrite Hfn. run_steps.
  rewrite Hrun. by run_steps.
Qed.

(** X16: a file whose extension has no loader, and a file whose loader
    raises [KeyError], are both reported as "not supported": the file
    contributes nothing (given that chunking the empty text yields no chunk)
    and the loop goes on with the next file and the same collection. *)
Theorem unsupported_file_is_skipped (w : world) (total i : nat) (file : string)
    (rest : list string) (c : vcollection) (s : gmap string value) :
  content_unavailable w file →
  chunk_text w "" file = inr [] →
  App.index_files w total i (file :: rest) c s =
  match App.index_files w total (S i) rest c s with
  | Run r s' o => Run r s' (Progress (S i) total :: unsupported_notice file :: o)
  end.
Proof.
  intros Hfile Hchunk. rewrite index_files_cons. run_steps.
  rewrite (load_content_unavailable w file s Hfile). simpl.
  rewrite bind_run, Hchunk. simpl. rewrite bind_run. simpl.
  by destruct (App.index_files w total (S i) rest c s).
Qed.

Lemma unsupported_file_is_skipped_witness :
  App.index_files (Demo.laptop []) 2 0 ["docs/notes.md"; "docs/a.txt"]
    (Collection "docs" []) ∅
  = Run (Ret (Collection "docs" [Chunk "text of docs/a.txt" "docs/a.txt"])) ∅
      [ Progress 1 2; unsupported_notice "docs/notes.md"; Progress 2 2 ].
Proof.
  etrans.
  - apply (unsupported_file_is_skipped (Demo.laptop []) 2 0 "docs/notes.md"
             ["docs/a.txt"] (Collection "docs" []) ∅).
    + left. reflexivity.
    + reflexivity.
  - reflexivity.
Defined.

(** X17: when inserting the chunks of a file fails, the notice naming the
    file is shown, the collection stays the one before the call and the loop
    goes on with the next file. *)
Theorem insert_failure_skips_file (w : world) (total i : nat) (file : string)
    (rest : list string) (c : vcollection) (s : gmap string value)
    (ch : chunk) (chunks : list chunk) (e : exn) :
  loads w file (ch :: chunks) →
  add_chunks_error w (ch :: chunks) c = Some e →
  App.index_files w total i (file :: rest) c s =
  match App.index_files w total (S i) rest c s with
  | Run r s' o => Run r s' (Progress (S i) total :: skip_notice file :: o)
  end.
Proof.
  intros (fn & content & Hfn & Hrun & Hchunk) Hfail.
  rewrite index_files_cons. run_steps.
  rewrite (load_content_loaded w file content fn s Hfn Hrun). simpl.
  rewrite bind_run, Hchunk. simpl. rewrite bind_run.
  unfold App.insert_chunks, App.add_chunks. rewrite try_run, Hfail. simpl.
  by destruct (App.index_files w total (S i) rest c s).
Qed.

Lemma insert_failure_skips_file_witness :
  let w := Demo.mk_world ∅ "laptop" [] (inr "text of a pdf")
             (λ chunks, bool_decide (chunk_source <$> chunks = ["docs/b.pdf"])) false in
  App.index_files w 2 0 ["docs/b.pdf"; "docs/a.txt"] (Collection "docs" []) ∅
  = Run (Ret (Collection "docs" [Chunk "text of docs/a.txt" "docs/a.txt"])) ∅
      [ Progress 1 2; skip_notice "docs/b.pdf"; Progress 2 2 ].
Proof.
  intros w. etrans.
  - apply (insert_failure_skips_file w 2 0 "docs/b.pdf" ["docs/a.txt"]
             (Collection "docs" []) ∅ (Chunk "text of a pdf" "docs/b.pdf") []
             (OtherError "store unavailable")).
    + exists load_pdf, "text of a pdf". repeat split; reflexivity.
    + reflexivity.
  - reflexivity.
Defined.

(** When every file loads and every insertion succeeds, the loop returns
    the collection extended by the chunks of the files, in the order of the
    files, and shows the progress bar only. *)
Lemma index_files_all_succeed (w : world) (total : nat) (fs : list string)
    (css : list (list chunk)) :
  Forall2 (loads w) fs css →
  (∀ chunks c, add_chunks_error w chunks c = None) →
  ∀ (i : nat) (c0 : vcollection) (s : gmap string value),
    App.index_files w total i fs c0 s =
    Run (Ret (Collection (coll_scope c0) (coll_chunks c0 ++ concat css))) s
      ((λ j, Progress (S j) total) <$> seq i (length fs)).
Proof.
  intros Hloads Hadd.
  induction Hloads as [|file cs fs css (fn & content & Hfn & Hrun & Hchunk) _ IH];
    intros i c0 s.
  - simpl. rewrite app_nil_r. by destruct c0.
  - rewrite index_files_cons. run_steps.
    rewrite (load_content_loaded w file content fn s Hfn Hrun). simpl.
    rewrite bind_run, Hchunk. simpl. rewrite bind_run.
    assert (App.insert_chunks w file cs c0 s
            = Run (Ret (Collection (coll_scope c0) (coll_chunks c0 ++ cs))) s [])
      as ->.
    { destruct (insert_chunks_run w file cs c0 s) as [H | H]; [done|].
      destruct cs as [|ch cs]; [simpl; rewrite app_nil_r; by destruct c0|].
      unfold App.insert_chunks, App.add_chunks in *. rewrite try_run, Hadd in H.
      simpl in H. rewrite try_run, Hadd. done. }
    rewrite IH. simpl. by rewrite <- (assoc_L (++)).
Qed.

(** X18: when the collection can be created, every file loads and every
    insertion succeeds, indexing stores the created collection extended by
    the chunks of all files, in the order of the files, followed by the
    file-name index; it shows the spinner and the progress bar only, writes
    no other entry and ends at [st.rerun()]. *)
Theorem indexing_stores_all_chunks (w : world) (s : gmap string value) (p : string)
    (fs : list string) (css : list (list chunk)) (c0 : vcollection)
    (file_index : list chunk) :
  s !! "collection" = None →
  create_collection w p = inr c0 →
  Forall2 (loads w) fs css →
  (∀ chunks c, add_chunks_error w chunks c = None) →
  create_file_index_chunk w fs = inr file_index →
  App.initialize_vector_store w (VStr p) (VFiles fs) s =
  Run (Sig Rerun)
    (<["collection" :=
         VColl (Collection (coll_scope c0)
                  (coll_chunks c0 ++ concat css ++ file_index))]> s)
    (Spinner "Indexing documents..." :: Progress 0 1
       :: ((λ j, Progress (S j) (length fs)) <$> seq 0 (length fs))).
Proof.
  intros Hc Hcreate Hloads Hadd Hfi. unfold App.initialize_vector_store.
  run_steps. rewrite Hcreate. run_steps.
  rewrite (index_files_all_succeed w (length fs) fs css Hloads Hadd). simpl.
  rewrite bind_run, Hfi. simpl. rewrite bind_run, try_run.
  unfold App.add_chunks. rewrite Hadd. simpl.
  by rewrite !app_nil_r, <- (assoc_L (++)).
Qed.

Lemma indexing_stores_all_chunks_witness :
  let fs := ["docs/a.txt"; "docs/b.pdf"] in
  let s : gmap string value := {[ "folder_path" := VStr "docs"; "files" := VFiles fs ]} in
  final (App.initialize_vector_store (Demo.laptop fs) (VStr "docs") (VFiles fs) s)
    !! "collection"
  = Some (VColl (Collection "docs"
                   [ Chunk "text of docs/a.txt" "docs/a.txt";
                     Chunk "text of a pdf" "docs/b.pdf";
                     Chunk "docs/a.txt, docs/b.pdf" "file_index" ])).
Proof.
  intros fs s.
  rewrite (indexing_stores_all_chunks (Demo.laptop fs) s "docs" fs
             [ [Chunk "text of docs/a.txt" "docs/a.txt"];
               [Chunk "text of a pdf" "docs/b.pdf"] ]
             (Collection "docs" [])
             [Chunk "docs/a.txt, docs/b.pdf" "file_index"]); try reflexivity.
  repeat constructor.
  - by exists load_txt, "text of docs/a.txt".
  - by exists load_pdf, "text of a pdf".
Defined.

Lemma load_content_shows_writes (w : world) (file : string) (s : gmap string value) :
  ∀ x, x ∈ shown (App.load_content w file s) → ∃ text, x = Write text.
Proof.
  unfold App.load_content, item. intros x.
  destruct (App.loaders !! splitext w file) as [fn|]; run_steps.
  - destruct (run_loader w fn file) as [e|text]; simpl.
    + destruct (is_KeyError e); simpl; list_mem; intros H;
        repeat match goal with H : _ ∨ _ |- _ => destruct H as [H | H] end;
        try done; by eexists.
    + by intros ?%elem_of_nil.
  - list_mem. intros [-> | []]. by eexists.
Qed.

(** Every progress value the loop shows has the total as denominator and a
    numerator between the index of the first file, exclusive, and that index
    plus the number of files. *)
Lemma index_files_progress (w : world) (total : nat) (fs : list string) :
  ∀ (i : nat) (c : vcollection) (s : gmap string value) (n d : nat),
    Progress n d ∈ shown (App.index_files w total i fs c s) →
    d = total ∧ i < n ≤ i + length fs.
Proof.
  induction fs as [|file rest IH]; intros i c s n d.
  { simpl. by intros ?%elem_of_nil. }
  rewrite index_files_cons. run_steps.
  pose proof (load_content_shows_writes w file s) as Hwrites.
  pose proof (load_content_final w file s) as Hfinal.
  destruct (App.load_content w file s) as [[content|g] s1 o1]; simpl in *; subst s1.
  2: { list_mem. intros [[= -> ->] | Hin]; [lia|].
       destruct (Hwrites _ Hin) as [? [=]]. }
  rewrite bind_run.
  destruct (chunk_text w content file) as [e|cs]; simpl.
  { rewrite app_nil_r. list_mem. intros [[= -> ->] | Hin]; [lia|].
    destruct (Hwrites _ Hin) as [? [=]]. }
  rewrite bind_run.
  destruct (insert_chunks_run w file cs c s) as [-> | ->]; simpl.
  - specialize (IH (S i) (Collection (coll_scope c) (coll_chunks c ++ cs)) s n d).
    destruct (App.index_files _ _ _ _ _ _) as [r2 s2 o2]; simpl in *.
    list_mem. intros [[= -> ->] | [Hin | Hin]]; [lia| |].
    + destruct (Hwrites _ Hin) as [? [=]].
    + destruct (IH Hin). lia.
  - specialize (IH (S i) c s n d).
    destruct (App.index_files _ _ _ _ _ _) as [r2 s2 o2]; simpl in *.
    list_mem. intros [[= -> ->] | [Hin | [[=] | Hin]]]; [lia| |].
    + destruct (Hwrites _ Hin) as [? [=]].
    + destruct (IH Hin). lia.
Qed.

(** ** What a step shows *)

Section shows.
Context (P : widget → Prop).

Lemma shows_ret {A} (a : A) : shows_only P (mret a).
Proof. by intros s x ?%elem_of_nil. Qed.

Lemma shows_bind {A B} (m : M A) (k : A → M B) :
  shows_only P m → (∀ a, shows_only P (k a)) → shows_only P (m ≫= k).
Proof.
  intros Hm Hk s x. rewrite bind_run. specialize (Hm s).
  destruct (m s) as [[a|g] s1 o1]; simpl in *; [|by apply Hm].
  specialize (Hk a s1). destruct (k a s1) as [r s2 o2]; simpl in *.
  rewrite elem_of_app. intros [?|?]; auto.
Qed.

Lemma shows_try {A} (m : M A) (h : exn → option (M A)) :
  shows_only P m → (∀ e m', h e = Some m' → shows_only P m') →
  shows_only P (try_except m h).
Proof.
  intros Hm Hh s x. rewrite try_run. specialize (Hm s).
  destruct (m s) as [[a|[| |e]] s1 o1]; simpl in *; try by apply Hm.
  destruct (h e) as [m'|] eqn:He; [|by apply Hm].
  specialize (Hh e m' He s1). destruct (m' s1) as [r s2 o2]; simpl in *.
  rewrite elem_of_app. intros [?|?]; auto.
Qed.

Lemma shows_show (x : widget) : P x → shows_only P (show x).
Proof. intros Hx s y. simpl. list_mem. by intros [-> | []]. Qed.

Lemma shows_silent {A} (m : M A) : (∀ s, shown (m s) = []) → shows_only P m.
Proof. intros H s x. rewrite H. by intros ?%elem_of_nil. Qed.

Lemma shows_when (b : bool) (m : M unit) : shows_only P m → shows_only P (when b m).
Proof. destruct b; [done|]. intros _. apply shows_ret. Qed.

End shows.

(** Applies the rule for the step at the head of the goal. *)
Ltac shows_step :=
  lazymatch goal with
  | |- shows_only _ (_ ≫= _) => apply shows_bind; [|intros ?]
  | |- shows_only _ (mret _) => apply shows_ret
  | |- shows_only _ (show _) => apply shows_show
  | |- shows_only _ (when _ _) => apply shows_when
  | |- shows_only _ (try_except _ _) =>
      apply shows_try; [|intros ? ? [= <-] || (intros ? ? ?; case_match; simplify_eq)]
  | |- shows_only _ (if ?b then _ else _) => destruct b
  | |- shows_only _ (match ?x with _ => _ end) => destruct x
  | |- shows_only _ (let '(_, _) := ?x in _) => destruct x
  | |- shows_only _ (call ?r) => apply shows_silent; intros ?; by destruct r
  | |- shows_only _ (getattr ?k) =>
      apply shows_silent; let s := fresh in
      intros s; rewrite getattr_run; by destruct (s !! k)
  | |- shows_only _ (delattr ?k) =>
      apply shows_silent; let s := fresh in
      intros s; unfold delattr; by destruct (s !! k)
  | |- shows_only _ (item ?d ?k) =>
      apply shows_silent; intros ?; unfold item; by destruct (d !! k)
  | |- shows_only _ (as_str ?v) => apply shows_silent; intros ?; by destruct v
  | |- shows_only _ (as_files ?v) => apply shows_silent; intros ?; by destruct v
  | |- shows_only _ (as_zip ?v) => apply shows_silent; intros ?; by destruct v
  | |- shows_only _ (as_coll ?v) => apply shows_silent; intros ?; by destruct v
  | |- shows_only _ (as_llm ?v) => apply shows_silent; intros ?; by destruct v
  | |- shows_only _ (as_msgs ?v) => apply shows_silent; intros ?; by destruct v
  | |- shows_only _ (py_len ?v) => apply shows_silent; intros ?; by destruct v
  | |- shows_only _ (del_if_in _) =>
      apply shows_silent; intros ?; by rewrite del_if_in_run
  | |- shows_only _ _ => apply shows_silent; by intros ?
  end.

(** X19: every value [initialize_vector_store] gives the progress bar is a
    fraction between 0 and 1 with a positive denominator, whatever fails
    during indexing: the division by [len(files)] happens only inside the
    loop, where the list is not empty, and the index never exceeds its
    length. *)
Theorem progress_in_range (w : world) (folder_path files : value)
    (s : gmap string value) (n d : nat) :
  Progress n d ∈ shown (App.initialize_vector_store w folder_path files s) →
  (0 < d)%nat ∧ (n ≤ d)%nat.
Proof.
  intros Hin.
  cut (shows_only (λ x, ∀ n d, x = Progress n d → (0 < d)%nat ∧ (n ≤ d)%nat)
         (App.initialize_vector_store w folder_path files)).
  { intros H. by apply (H s _ Hin). }
  clear. unfold App.initialize_vector_store.
  repeat first
    [ match goal with
      | |- shows_only _ (App.index_files w (length ?fs) 0 ?fs ?c) =>
          let s := fresh in let x := fresh in
          intros s x ? ? ? ->;
          edestruct (index_files_progress w (length fs) fs 0 c s); [eassumption|]; lia
      end
    | shows_step ]; try done.
  intros n d [= <- <-]. lia.
Qed.

Lemma progress_in_range_witness :
  let fs := ["docs/a.txt"; "docs/b.pdf"; "docs/c.txt"] in
  Progress 2 3 ∈ shown (App.initialize_vector_store (Demo.corrupt_pdf fs)
                          (VStr "docs") (VFiles fs) ∅) ∧
  (0 < 3)%nat ∧ (2 ≤ 3)%nat.
Proof.
  intros fs.
  assert (Progress 2 3 ∈ shown (App.initialize_vector_store (Demo.corrupt_pdf fs)
                                  (VStr "docs") (VFiles fs) ∅)) as Hin.
  { assert (shown (App.initialize_vector_store (Demo.corrupt_pdf fs)
                     (VStr "docs") (VFiles fs) ∅)
            = [ Spinner "Indexing documents..."; Progress 0 1; Progress 1 3;
                Progress 2 3 ]) as -> by reflexivity.
    list_mem. auto 10. }
  split; [exact Hin|].
  exact (progress_in_range (Demo.corrupt_pdf fs) (VStr "docs") (VFiles fs) ∅ 2 3 Hin).
Defined.

(** X20: when the vector store cannot be created, the error is shown and
    the run halts at [st.stop()] with nothing stored: no collection, no LLM
    client, no history.  The collection is requested under the folder path
    in local mode and under the archive's file name in hosted mode. *)
Theorem collection_creation_failure_halts (w : world) (ev : events)
    (s : gmap string value) (scope : string) (fs : value) (e : exn) :
  s !! "collection" = None →
  s !! "files" = Some fs →
  (App.is_streamlit_cloud (environ w) = false ∧
   s !! "folder_path" = Some (VStr scope)) ∨
  (App.is_streamlit_cloud (environ w) = true ∧
   ∃ z, s !! "uploaded_zip" = Some (VZip z) ∧ scope = name z) →
  create_collection w scope = inl e →
  App.after_source w ev s =
  Run (Sig Stop) s [Write "Error setting up the document storage system."].
Proof.
  intros Hc Hf Hmode Hcreate. unfold App.after_source, App.initialize_vector_store.
  destruct Hmode as [[Hmode Hp] | (Hmode & z & Hz & ->)]; rewrite Hmode;
    run_steps; rewrite Hcreate; by run_steps.
Qed.

Lemma collection_creation_failure_halts_witness :
  let w := World ∅ "laptop" "05 Jan, 2025" ∅ [] (λ _, true) (λ _, inr ["docs/a.txt"])
             "/tmp/x" (λ _ _, None) Demo.posix_ext (λ _ _, inr "text")
             (λ _ _, inr []) (λ _, inl (OtherError "store unavailable"))
             (λ _ _, None) (λ _, inr []) (λ _ _, inr []) (λ _, inr [])
             (λ _ _ _ _, inr "") (inr (LlmClient "m")) in
  let s : gmap string value :=
    {[ "folder_path" := VStr "docs"; "files" := VFiles ["docs/a.txt"] ]} in
  App.after_source w Demo.refresh s =
  Run (Sig Stop) s [Write "Error setting up the document storage system."].
Proof.
  intros w s.
  apply (collection_creation_failure_halts w Demo.refresh s "docs"
           (VFiles ["docs/a.txt"]) (OtherError "store unavailable"));
    try reflexivity.
  left. split; reflexivity.
Defined.

(** ** More on the chat *)

(** X21: a question whose retrieval and generation succeed is answered in
    one run: the user turn and the assistant turn are appended in that
    order, both are shown, and the history handed to the LLM already ends
    with the question being asked. *)
Theorem chat_answer_appends_both_turns (w : world) (ev : events)
    (s : gmap string value) (c : vcollection) (h : llm_client) (q answer : string)
    (ms : list message) (found : list chunk) (hist : list lc_message) :
  chat_input ev = PStr q →
  q ≠ "" →
  s !! "messages" = Some (VMsgs ms) →
  query_documents w c (PStr q) = inr found →
  set_langchain_history w (ms ++ [user_turn q]) = inr hist →
  generate_answer w h (PStr q) found hist = inr answer →
  App.handle_chat_input w ev (VColl c) (VLlm h) s =
  Run (Ret tt)
    (<["messages" := VMsgs (ms ++ [user_turn q; assistant_turn answer])]> s)
    [ ChatInput "Ask your question";
      ChatMessage (PStr "user") (PStr q);
      ChatMessage (PStr "assistant") (PStr answer) ].
Proof.
  intros Hin Hq Hms Hquery Hhist Hanswer. apply String.eqb_neq in Hq.
  unfold App.handle_chat_input, append_message. rewrite Hin. simpl. rewrite Hq.
  run_steps. rewrite Hquery. run_steps. fold (user_turn q). rewrite Hhist.
  run_steps. rewrite Hanswer. run_steps.
  by rewrite insert_insert_eq, <- (assoc_L (++)).
Qed.

Lemma chat_answer_appends_both_turns_witness :
  let s : gmap string value := {[ "messages" := VMsgs [] ]} in
  let c := Collection "docs" [Chunk "The sky is blue." "docs/a.txt"] in
  final (App.handle_chat_input (Demo.laptop []) (Demo.ask "What color is the sky?")
           (VColl c) (VLlm (LlmClient "demo-model")) s) !! "messages"
  = Some (VMsgs [ user_turn "What color is the sky?";
                  assistant_turn "The sky is blue." ]).
Proof.
  intros s c.
  rewrite (chat_answer_appends_both_turns (Demo.laptop [])
             (Demo.ask "What color is the sky?") s c (LlmClient "demo-model")
             "What color is the sky?" "The sky is blue." []
             [Chunk "The sky is blue." "docs/a.txt"]
             [HumanMessage (PStr "What color is the sky?")]);
    try reflexivity.
  done.
Defined.

(** X22: the calls that convert the history and generate the answer are
    guarded by no [try]: when either raises, the exception leaves the chat
    handler uncaught, no notice is shown, and the history keeps the user
    turn without an answer. *)
Theorem generation_failure_escapes (w : world) (ev : events)
    (s : gmap string value) (c : vcollection) (h : llm_client) (q : string)
    (ms : list message) (found : list chunk) (e : exn) :
  chat_input ev = PStr q →
  q ≠ "" →
  s !! "messages" = Some (VMsgs ms) →
  query_documents w c (PStr q) = inr found →
  set_langchain_history w (ms ++ [user_turn q]) = inl e ∨
  (∃ hist, set_langchain_history w (ms ++ [user_turn q]) = inr hist ∧
           generate_answer w h (PStr q) found hist = inl e) →
  App.handle_chat_input w ev (VColl c) (VLlm h) s =
  Run (Sig (Raise e)) (<["messages" := VMsgs (ms ++ [user_turn q])]> s)
    [ ChatInput "Ask your question"; ChatMessage (PStr "user") (PStr q) ].
Proof.
  intros Hin Hq Hms Hquery Hfail. apply String.eqb_neq in Hq.
  unfold App.handle_chat_input, append_message. rewrite Hin. simpl. rewrite Hq.
  run_steps. rewrite Hquery. run_steps. fold (user_turn q).
  destruct Hfail as [Hhist | (hist & Hhist & Hgen)]; rewrite Hhist; run_steps;
    [done|]. rewrite Hgen. by run_steps.
Qed.

Lemma generation_failure_escapes_witness :
  let w := World ∅ "laptop" "05 Jan, 2025" ∅ [] (λ _, true) (λ _, inr ["docs/a.txt"])
             "/tmp/x" (λ _ _, None) Demo.posix_ext (λ _ _, inr "text")
             (λ _ _, inr []) (λ p, inr (Collection p []))
             (λ _ _, None) (λ _, inr []) (λ _ _, inr []) (λ _, inr [])
             (λ _ _ _ _, inl (OtherError "model request failed"))
             (inr (LlmClient "m")) in
  let s : gmap string value := {[ "messages" := VMsgs [] ]} in
  let r := App.handle_chat_input w (Demo.ask "hello?") (VColl (Collection "docs" []))
             (VLlm (LlmClient "m")) s in
  outcome r = Sig (Raise (OtherError "model request failed")) ∧
  final r !! "messages" = Some (VMsgs [user_turn "hello?"]).
Proof.
  intros w s r. unfold r.
  rewrite (generation_failure_escapes w (Demo.ask "hello?") s (Collection "docs" [])
             (LlmClient "m") "hello?" [] [] (OtherError "model request failed"));
    try reflexivity; try done.
  right. by exists [].
Defined.

(** X23: the replay shows the history as it was appended: for a well-formed
    history followed by the two turns of one exchange, it renders every turn
    in order, ending with the user's question and the assistant's answer,
    raises nothing and changes nothing. *)
Theorem replay_round_trip (ms : list message) (q answer : string)
    (s : gmap string value) :
  Forall turn_ok ms →
  App.replay (ms ++ [user_turn q; assistant_turn answer]) s =
  Run (Ret tt) s
    ((render_turn <$> ms) ++ [ ChatMessage (PStr "user") (PStr q);
                               ChatMessage (PStr "assistant") (PStr answer) ]).
Proof.
  intros Hok. rewrite replay_ok.
  - by rewrite fmap_app.
  - apply Forall_app. split; [done|].
    repeat constructor; by eexists.
Qed.

Lemma replay_round_trip_witness :
  shown (App.replay [ user_turn "hi"; assistant_turn "hello";
                      user_turn "What files do you have?";
                      assistant_turn "a.txt" ] ∅)
  = [ ChatMessage (PStr "user") (PStr "hi");
      ChatMessage (PStr "assistant") (PStr "hello");
      ChatMessage (PStr "user") (PStr "What files do you have?");
      ChatMessage (PStr "assistant") (PStr "a.txt") ].
Proof.
  rewrite (replay_round_trip [user_turn "hi"; assistant_turn "hello"]
             "What files do you have?" "a.txt" ∅).
  - reflexivity.
  - repeat constructor; by eexists.
Defined.

(** ** Typing and growth of the session state *)

(** X24: a run keeps the session state typed: if every entry holds the
    kind of value the script stores under its key (a string under
    folder_path and temp_dir, a list of paths under files, a list of turns
    under messages, a boolean under show_popup, ...), the same holds after
    the run, however it ends; no run stores a value under any other key. *)
Theorem script_keeps_typing (w : world) (ev : events) (s : gmap string value) :
  session_typed s → session_typed (final (App.script w ev s)).
Proof.
  apply keeps_script.
  - intros k v Hkv _ _. by apply session_typed_write.
  - intros k _ _. apply session_typed_delete.
  - by apply session_typed_write.
  - by apply session_typed_write.
  - intros m _. apply session_typed_append.
Qed.

Lemma script_keeps_typing_witness :
  session_typed
    (final (App.script (Demo.laptop ["docs/a.txt"]) (Demo.load_folder "docs")
              {[ "folder_path" := VStr "old"; "show_popup" := VBool true ]})).
Proof.
  apply script_keeps_typing. apply session_typed_check. reflexivity.
Defined.

(** From a state with [I] the step ends in a state with [J]. *)
Lemma leads_bind {A B} (I J : gmap string value → Prop) (m : M A) (k : A → M B) :
  (∀ s, I s → J s) →
  keeps I m →
  (∀ a s, I s → J (final (k a s))) →
  ∀ s, I s → J (final ((m ≫= k) s)).
Proof.
  intros HIJ Hm Hk s Hs. rewrite bind_run. specialize (Hm s Hs).
  destruct (m s) as [[a|g] s1 o1]; simpl in *; [|by apply HIJ].
  specialize (Hk a s1 Hm). by destruct (k a s1).
Qed.

(** The chat handler appends to the history: nothing without a question,
    the user turn and at most one more turn with one. *)
Lemma handle_chat_input_appends (w : world) (ev : events) (collection llm : value)
    (ms : list message) (s : gmap string value) :
  s !! "messages" = Some (VMsgs ms) →
  ∃ added,
    final (App.handle_chat_input w ev collection llm s) !! "messages"
      = Some (VMsgs (ms ++ added)) ∧
    (atom_truthy (chat_input ev) = false → added = []) ∧
    (length added ≤ 2)%nat.
Proof.
  intros Hms. unfold App.handle_chat_input, append_message.
  destruct (atom_truthy (chat_input ev)) eqn:Hin; run_steps.
  2: { exists []. rewrite app_nil_r. repeat split; try done. simpl. lia. }
  destruct collection; run_steps;
    try (exists [{[ "role" := PStr "user"; "content" := chat_input ev ]}];
         repeat split; try done; simpl; lia).
  destruct (query_documents w c (chat_input ev)) as [e|found]; run_steps.
  { eexists [_]. repeat split; try done. simpl. lia. }
  destruct (set_langchain_history w _) as [e|hist]; run_steps.
  { eexists [_]. repeat split; try done. simpl. lia. }
  destruct llm; run_steps; try (eexists [_]; repeat split; try done; simpl; lia).
  destruct (generate_answer w h (chat_input ev) found hist) as [e|answer];
    run_steps.
  { eexists [_]. repeat split; try done. simpl. lia. }
  eexists [_; _]. rewrite <- (assoc_L (++)).
  repeat split; done.
Qed.

(** X25: unless Clear Chat History is pressed, the history only grows: the
    turns present before a run are still there after it, in the same order,
    followed by at most two new turns, and by none when no question was
    submitted in that run. *)
Theorem history_append_only (w : world) (ev : events) (s : gmap string value)
    (ms : list message) :
  s !! "messages" = Some (VMsgs ms) →
  clear_chat_clicked ev = false →
  ∃ added,
    final (App.script w ev s) !! "messages" = Some (VMsgs (ms ++ added)) ∧
    (atom_truthy (chat_input ev) = false → added = []) ∧
    (length added ≤ 2)%nat.
Proof.
  intros Hms Hclear.
  set (I := λ s' : gmap string value, s' !! "messages" = Some (VMsgs ms)).
  set (J := λ s' : gmap string value, ∃ added,
              s' !! "messages" = Some (VMsgs (ms ++ added)) ∧
              (atom_truthy (chat_input ev) = false → added = []) ∧
              (length added ≤ 2)%nat).
  assert (∀ s', I s' → J s') as HIJ.
  { intros s' Hs'. exists []. rewrite app_nil_r. repeat split; try done.
    simpl. lia. }
  assert (∀ k v, k ≠ "messages" → write_ok I k v) as Hw
    by (intros; by apply write_other_key).
  assert (∀ k, k ≠ "messages" → delete_ok I k) as Hd
    by (intros; by apply delete_other_key).
  change (J (final (App.script w ev s))). rewrite script_parts.
  apply (leads_bind I J); [done|apply keeps_show|intros _ s1 Hs1|done].
  apply (leads_bind I J); [done|apply keeps_show|intros _ s2 Hs2|done].
  apply (leads_bind I J); [done| |intros _ s3 Hs3|done].
  { unfold App.render_sidebar. rewrite Hclear. simpl.
    repeat keeps_step; try done; (apply Hw || apply Hd); done. }
  apply (leads_bind I J); [done| |intros _ s4 Hs4|done].
  { apply keeps_resolve; intros v; by apply Hw. }
  unfold App.after_source.
  apply (leads_bind I J); [done|repeat keeps_step|intros cp s5 Hs5|done].
  apply (leads_bind I J); [done|keeps_step|intros fs s6 Hs6|done].
  apply (leads_bind I J); [done| |intros _ s7 Hs7|done].
  { unfold App.initialize_vector_store. repeat keeps_step; try done. by apply Hw. }
  apply (leads_bind I J); [done|keeps_step|intros b s8 Hs8|done].
  apply (leads_bind I J); [done| |intros _ s9 Hs9|done].
  { repeat keeps_step; try done. by apply Hw. }
  apply (leads_bind I J); [done|keeps_step|intros llm s10 Hs10|done].
  rewrite bind_run, has_run, Hs10. simpl. rewrite bind_run. simpl.
  rewrite bind_run, bind_run, getattr_run, Hs10. simpl.
  rewrite bind_run.
  pose proof (keeps_replay I ms s10 Hs10) as Hreplay.
  destruct (App.replay ms s10) as [[[]|g] s11 o11]; simpl in *; [|by apply HIJ].
  rewrite bind_run, getattr_run.
  destruct (s11 !! "collection") as [coll|]; simpl; [|by apply HIJ].
  destruct (handle_chat_input_appends w ev coll llm ms s11 Hreplay)
    as (added & H1 & H2 & H3).
  destruct (App.handle_chat_input w ev coll llm s11) as [r12 s12 o12].
  simpl in *. by exists added.
Qed.

Lemma history_append_only_witness :
  let s : gmap string value :=
    {[ "folder_path" := VStr "docs"; "files" := VFiles ["docs/a.txt"];
       "collection" := VColl (Collection "docs" []);
       "llm" := VLlm (LlmClient "demo-model");
       "messages" := VMsgs [user_turn "hi"; assistant_turn "hello"] ]} in
  ∃ added,
    final (App.script (Demo.laptop ["docs/a.txt"]) Demo.refresh s) !! "messages"
      = Some (VMsgs ([user_turn "hi"; assistant_turn "hello"] ++ added)) ∧
    added = [].
Proof.
  intros s.
  destruct (history_append_only (Demo.laptop ["docs/a.txt"]) Demo.refresh s
              [user_turn "hi"; assistant_turn "hello"])
    as (added & H1 & H2 & _); try reflexivity.
  exists added. split; [exact H1|]. by apply H2.
Defined.

(** ** The two modes do not mix *)

(** A property kept by every run whose world and events satisfy [Q] holds
    after a session of such runs. *)
Lemma session_keeps_where (Q : world → events → Prop)
    (I : gmap string value → Prop) :
  (∀ w ev, Q w ev → keeps I (App.script w ev)) →
  ∀ runs s, Forall (λ r, Q r.1 r.2) runs → I s → I (App.session runs s).1.
Proof.
  intros Hkeep runs. induction runs as [|[w ev] rest IH]; intros s Hruns Hs; [done|].
  apply Forall_cons in Hruns as [Hq Hrest]. simpl in *.
  specialize (IH _ Hrest (Hkeep w ev Hq s Hs)).
  by destruct (App.session rest _).
Qed.

(** A step that branches on [k in st.session_state]. *)
Lemma keeps_bind_has {B} (I : gmap string value → Prop) (k : string)
    (f : bool → M B) :
  (∀ s, I s → I (final (f (bool_decide (is_Some (s !! k))) s))) →
  keeps I (has k ≫= f).
Proof.
  intros H s Hs. rewrite bind_run, has_run. simpl. specialize (H s Hs).
  by destruct (f _ s).
Qed.

Lemma no_upload_write (k : string) (v : value) :
  k ≠ "uploaded_zip" → k ≠ "temp_dir" → write_ok no_upload k v.
Proof. intros ?? s [??]. split; by rewrite lookup_insert_ne. Qed.

Lemma no_upload_delete (k : string) : delete_ok no_upload k.
Proof. intros s [??]. split; apply lookup_delete_None; auto. Qed.

Lemma no_folder_write (k : string) (v : value) :
  k ≠ "folder_path" → k ≠ "show_popup" → write_ok no_folder k v.
Proof. intros ?? s [??]. split; by rewrite lookup_insert_ne. Qed.

Lemma no_folder_delete (k : string) : delete_ok no_folder k.
Proof. intros s [??]. split; apply lookup_delete_None; auto. Qed.

Lemma local_run_keeps_no_upload (w : world) (ev : events) :
  App.is_streamlit_cloud (environ w) = false →
  keeps no_upload (App.script w ev).
Proof.
  intros Hmode. apply keeps_script_parts.
  - unfold App.render_sidebar. rewrite Hmode.
    repeat keeps_step; try done;
      (apply no_upload_write || apply no_upload_delete); done.
  - unfold App.resolve_source. apply keeps_bind_has. intros s Hs.
    destruct (bool_decide (is_Some (s !! "folder_path"))).
    + revert s Hs.
      match goal with
      | |- ∀ s, no_upload s → no_upload (final (?m s)) => change (keeps no_upload m)
      end.
      repeat keeps_step; try done; by apply no_upload_write.
    + revert s Hs. apply keeps_bind_has. intros s Hs.
      destruct Hs as [H1 H2]. rewrite H1. by split.
  - apply keeps_after_source; intros v; by apply no_upload_write.
Qed.

Lemma hosted_run_keeps_no_folder (w : world) (ev : events) :
  App.is_streamlit_cloud (environ w) = true →
  keeps no_folder (App.script w ev).
Proof.
  intros Hmode. apply keeps_script_parts.
  - unfold App.render_sidebar. rewrite Hmode.
    repeat keeps_step; try done;
      (apply no_folder_write || apply no_folder_delete); done.
  - unfold App.resolve_source, App.extract_zip_and_scan.
    apply keeps_bind_has. intros s Hs.
    assert (s !! "folder_path" = None) as -> by apply Hs. simpl.
    revert s Hs.
    match goal with
    | |- ∀ s, no_folder s → no_folder (final (?m s)) => change (keeps no_folder m)
    end.
    repeat keeps_step; try done; by apply no_folder_write.
  - apply keeps_after_source; intros v; by apply no_folder_write.
Qed.

(** X26: the entries of the two modes do not mix: in a session whose runs
    are all in local mode, no upload and no extraction directory is ever
    recorded; in a session whose runs are all in hosted mode, no folder path
    and no show_popup flag is. *)
Theorem modes_do_not_mix (runs : list (world * events)) :
  (Forall (λ r, App.is_streamlit_cloud (environ r.1) = false) runs →
   (App.session runs ∅).1 !! "uploaded_zip" = None ∧
   (App.session runs ∅).1 !! "temp_dir" = None) ∧
  (Forall (λ r, App.is_streamlit_cloud (environ r.1) = true) runs →
   (App.session runs ∅).1 !! "folder_path" = None ∧
   (App.session runs ∅).1 !! "show_popup" = None).
Proof.
  split; intros Hruns.
  - apply (session_keeps_where
             (λ w _, App.is_streamlit_cloud (environ w) = false) no_upload);
      [intros w ev; apply local_run_keeps_no_upload|done|done].
  - apply (session_keeps_where
             (λ w _, App.is_streamlit_cloud (environ w) = true) no_folder);
      [intros w ev; apply hosted_run_keeps_no_folder|done|done].
Qed.

Lemma modes_do_not_mix_witness :
  let z := UploadedFile "docs.zip" "PK" in
  let runs := [ (Demo.hosted [], Demo.load_zip z); (Demo.hosted [], Demo.refresh) ] in
  (App.session runs ∅).1 !! "uploaded_zip" = Some (VZip z) ∧
  (App.session runs ∅).1 !! "folder_path" = None ∧
  (App.session runs ∅).1 !! "show_popup" = None.
Proof.
  intros z runs. split; [reflexivity|].
  apply (modes_do_not_mix runs). repeat constructor.
Defined.

(** ** Runs that end without an uncaught exception *)

(** The run did not end by an uncaught exception. *)
Lemma index_files_returns (w : world) (total : nat) (fs : list string) :
  reliable w →
  ∀ (i : nat) (c : vcollection) (s : gmap string value),
    ∃ c' o, App.index_files w total i fs c s = Run (Ret c') s o.
Proof.
  intros Hw. induction fs as [|file rest IH]; intros i c s.
  - by eexists _, _.
  - rewrite index_files_cons. run_steps.
    assert (∃ content o, App.load_content w file s = Run (Ret content) s o)
      as (content & o & ->).
    { destruct (App.loaders !! splitext w file) as [fn|] eqn:Hfn.
      - destruct (loader_ok w Hw fn file) as [[text Hrun] | [key Hrun]].
        + eexists _, _. by apply (load_content_loaded w file text fn).
        + eexists _, _. apply load_content_unavailable. right. eauto.
      - eexists _, _. apply load_content_unavailable. by left. }
    simpl. rewrite bind_run.
    destruct (chunk_ok w Hw content file) as [cs ->]. simpl. rewrite bind_run.
    destruct (insert_chunks_run w file cs c s) as [-> | ->]; simpl.
    + destruct (IH (S i) (Collection (coll_scope c) (coll_chunks c ++ cs)) s)
        as (c' & o' & ->). by eexists _, _.
    + destruct (IH (S i) c s) as (c' & o' & ->). by eexists _, _.
Qed.

Lemma sidebar_never_raises (w : world) (ev : events) (s : gmap string value) (e : exn) :
  session_typed s →
  outcome (App.render_sidebar w ev s) ≠ Sig (Raise e).
Proof.
  intros Htyped. unfold App.render_sidebar.
  destruct (App.is_streamlit_cloud (environ w)).
  - destruct (file_uploader ev) as [z|]; [destruct (load_zip_clicked ev)|];
      destruct (clear_chat_clicked ev);
      typed_entry Htyped s "uploaded_zip"; typed_entry Htyped s "files";
      by run_steps.
  - destruct (load_folder_clicked ev);
      [destruct (String.eqb (text_input ev) ""),
                (path_exists w (text_input ev))|];
      destruct (clear_chat_clicked ev);
      typed_entry Htyped s "folder_path"; typed_entry Htyped s "files";
      by run_steps.
Qed.
